(** * russound_rio: the RIO session of [russound_rio/rio.py]

    A shallow embedding of the client for the Russound RIO line protocol:
    zone addressing ([ZoneID]), the response grammar ([_re_response]), the
    state cache with its callback fan-out, line processing
    ([_process_response]), the IO loop ([_ioloop]) and the public session
    operations built on [_send_cmd].

    Text.  A Python [str] is modelled by [string]; each [ascii] stands for
    the code point of the same number, so the model covers text whose code
    points lie below 256.  [_process_response] is modelled from the decoded
    text on: [str(res, 'utf-8')] itself (which raises on bytes that are not
    UTF-8) is not part of the embedding.

    Effects.  Everything the session does to the outside (calling a
    registered callback, logging an error, writing to the socket, resolving
    a future) is appended to a trace of [event]s.  A callback is an opaque
    handle: a callback that raises or re-enters the session is outside the
    model.  Debug logging is left out. *)

From Stdlib Require Import ZArith NArith Ascii String DecimalString DecimalPos DecimalZ.
From stdpp Require Import base option list gmap strings.

Local Open Scope string_scope.
Local Open Scope Z_scope.

(** ** Text primitives *)

Module Text.

Definition code (c : ascii) : N := N_of_ascii c.

(** [str.isspace] / regex [\s] on code points below 256. *)
Definition isspace (c : ascii) : bool :=
  let n := code c in
  ((9 <=? n) && (n <=? 13) || (28 <=? n) && (n <=? 32)
   || (n =? 133) || (n =? 160))%N.

(** regex [\S] *)
Definition non_space (c : ascii) : bool := negb (isspace c).

(** regex [\d] on code points below 256: the decimal digits 0-9. *)
Definition isdecimal (c : ascii) : bool :=
  let n := code c in ((48 <=? n) && (n <=? 57))%N.

(** regex [.] (no DOTALL): anything but a line feed. *)
Definition not_linebreak (c : ascii) : bool := negb (code c =? 10)%N.

Definition isupper (c : ascii) : bool :=
  let n := code c in
  ((65 <=? n) && (n <=? 90) || (192 <=? n) && (n <=? 214)
   || (216 <=? n) && (n <=? 222))%N.

Definition lower_char (c : ascii) : ascii :=
  if isupper c then ascii_of_N (code c + 32) else c.

(** [str.lower] *)
Fixpoint lower (s : string) : string :=
  match s with
  | EmptyString => EmptyString
  | String c s' => String (lower_char c) (lower s')
  end.

Fixpoint lstrip (s : string) : string :=
  match s with
  | EmptyString => EmptyString
  | String c s' => if isspace c then lstrip s' else s
  end.

Fixpoint rstrip (s : string) : string :=
  match s with
  | EmptyString => EmptyString
  | String c s' =>
      match rstrip s' with
      | EmptyString => if isspace c then EmptyString else String c EmptyString
      | r => String c r
      end
  end.

(** [str.strip] with no argument: whitespace removed at both ends. *)
Definition strip (s : string) : string := rstrip (lstrip s).

(** [s[n:]] *)
Fixpoint slice_from (n : nat) (s : string) : string :=
  match n, s with
  | O, _ => s
  | S n', String _ s' => slice_from n' s'
  | S _, EmptyString => EmptyString
  end.

Definition digit_value (c : ascii) : Z := Z.of_N (code c) - 48.

Fixpoint int_acc (acc : Z) (s : string) : Z :=
  match s with
  | EmptyString => acc
  | String c s' => int_acc (10 * acc + digit_value c) s'
  end.

(** [int(s)] for a run of decimal digits, the only text the session
    converts (the captures of [\d+]). *)
Definition int (s : string) : Z := int_acc 0 s.

(** the [%d] conversion of the [%] operator *)
Definition fmt_d (z : Z) : string := NilZero.string_of_int (Z.to_int z).

Definition dquote : ascii := "034"%char.
Definition q : string := String dquote EmptyString.

Fixpoint all (p : ascii -> bool) (s : string) : bool :=
  match s with
  | EmptyString => true
  | String c s' => p c && all p s'
  end.

End Text.

Import Text.

(** ** The response grammar

    [_re_response] is used through [.match]: anchored at the start of the
    payload, free at its end.  The matcher is written in continuation
    style, one combinator per regex construct, so that a greedy repetition
    backtracks the way the regex engine does: the longest run is tried
    first and is shortened one character at a time while the rest of the
    pattern fails.  A named group hands the captured text to its
    continuation. *)

Module Regex.

Section Combinators.
Context {R : Type}.

Definition matcher := string -> option R.

(** a literal run of characters *)
Fixpoint lit (l : string) (k : matcher) (s : string) : option R :=
  match l with
  | EmptyString => k s
  | String c l' =>
      match s with
      | String d s' => if Ascii.eqb c d then lit l' k s' else None
      | EmptyString => None
      end
  end.

(** one character of a class *)
Definition one (p : ascii -> bool) (k : matcher) (s : string) : option R :=
  match s with
  | String c s' => if p c then k s' else None
  | EmptyString => None
  end.

(** greedy [p*], capturing; [acc] is the text taken so far *)
Fixpoint star (p : ascii -> bool) (k : string -> matcher)
         (acc : string) (s : string) : option R :=
  match s with
  | String c s' =>
      if p c then
        match star p k (acc +:+ String c EmptyString) s' with
        | Some r => Some r
        | None => k acc s
        end
      else k acc s
  | EmptyString => k acc s
  end.

(** greedy [p+], capturing *)
Definition plus (p : ascii -> bool) (k : string -> matcher)
           (s : string) : option R :=
  match s with
  | String c s' => if p c then star p k (String c EmptyString) s' else None
  | EmptyString => None
  end.

(** [r1|r2]: the second alternative runs when the first one, followed
    by the rest of the pattern, fails *)
Definition alt (m1 m2 : matcher) (s : string) : option R :=
  match m1 s with
  | Some r => Some r
  | None => m2 s
  end.

End Combinators.

End Regex.

Import Regex.

(** [m.groupdict()]: a group that did not take part in the match is
    [None]; [variable] and [value] take part in every match. *)
Record groupdict := mk_groupdict {
  g_source : option string;
  g_controller : option string;
  g_zone : option string;
  g_variable : string;
  g_value : string
}.

(** The assignment part of the pattern: an escaped dot, the group
    [variable] = [\S+], an equals sign, a double quote, the group
    [value] = [.*] and a closing double quote. *)
Definition re_assignment (source controller zone : option string)
  : string -> option groupdict :=
  lit "."
    (plus non_space (fun variable =>
       lit ("=" +:+ q)
         (star not_linebreak (fun value =>
            lit q (fun _ =>
              Some (mk_groupdict source controller zone variable value)))
            EmptyString))).

(** The address part of the pattern: either [S\[ source \]] with
    [source] = [\d+], or [C\[ controller \].Z\[ zone \]] with
    [controller] = [zone] = [\d+]; then the assignment.  The dot before
    [Z] is not escaped in the source and stands for any character but a
    line feed. *)
Definition _re_response_match : string -> option groupdict :=
  alt
    (lit "S["
       (plus isdecimal (fun source =>
          lit "]" (re_assignment (Some source) None None))))
    (lit "C["
       (plus isdecimal (fun controller =>
          lit "]"
            (one not_linebreak
               (lit "Z["
                  (plus isdecimal (fun zone =>
                     lit "]"
                       (re_assignment None (Some controller) (Some zone))))))))).

(** ** Zone addressing *)

Record ZoneID := mk_ZoneID { zone : Z; controller : Z }.

Module ZoneIDOps.

(** [ZoneID.__str__] *)
Definition __str__ (self : ZoneID) : string :=
  fmt_d (controller self) +:+ ":" +:+ fmt_d (zone self).

(** [ZoneID.__eq__], for an [other] that is a [ZoneID] (it has both
    attributes, so the two [hasattr] tests hold) *)
Definition __eq__ (self other : ZoneID) : bool :=
  (zone other =? zone self) && (controller other =? controller self).

(** [ZoneID.device_str] *)
Definition device_str (self : ZoneID) : string :=
  "C[" +:+ fmt_d (controller self) +:+ "].Z[" +:+ fmt_d (zone self) +:+ "]".

Section Hash.
(** Python's [hash] on [str] *)
Variable str_hash : string -> Z.

(** [ZoneID.__hash__] *)
Definition __hash__ (self : ZoneID) : Z := str_hash (__str__ self).
End Hash.

End ZoneIDOps.

Global Instance ZoneID_eq_dec : EqDecision ZoneID.
Proof. solve_decision. Defined.

Global Instance ZoneID_countable : Countable ZoneID.
Proof.
  refine (inj_countable' (fun z => (zone z, controller z))
                         (fun p => mk_ZoneID (fst p) (snd p)) _).
  intros []; reflexivity.
Defined.

(** ** The session object and its effects *)

(** an [asyncio.Future] handed out by [_send_cmd] *)
Definition future := nat.

(** a registered callback function, by handle *)
Definition callback := nat.

(** the Python values a command resolves to *)
Inductive pyval :=
| PyNone
| PyStr (s : string).

Inductive exn :=
| CommandException (payload : string)
| UncachedVariable
| KeyError
| IndexError
| AttributeError (attr : string).

Inductive outcome (A : Type) :=
| Returned (a : A)
| Raised (e : exn).
Arguments Returned {A} a.
Arguments Raised {A} e.

Inductive event :=
| ZoneCallback (cb : callback) (zone_id : ZoneID) (name value : string)
| SourceCallback (cb : callback) (source_id : Z) (name value : string)
| LogError (payload : string)
| WireWrite (data : string)
| SetResult (fut : future) (value : pyval)
| SetException (fut : future) (e : exn).

(** the attributes [Russound.__init__] creates that carry session state *)
Record Russound := mk_Russound {
  _cmd_queue : list (string * future);
  _source_state : gmap Z (gmap string string);
  _zone_state : gmap ZoneID (gmap string string);
  _watched_zones : gset ZoneID;
  _watched_sources : gset Z;
  _zone_callbacks : list callback;
  _source_callbacks : list callback
}.

(** [Russound.__init__] *)
Definition __init__ : Russound :=
  mk_Russound [] ∅ ∅ ∅ ∅ [] [].

Record World := mk_World {
  self : Russound;
  trace : list event;
  next_future : future
}.

Definition set_self (f : Russound -> Russound) (w : World) : World :=
  mk_World (f (self w)) (trace w) (next_future w).

Definition set_cmd_queue (v : list (string * future)) (r : Russound) :=
  mk_Russound v (_source_state r) (_zone_state r) (_watched_zones r)
              (_watched_sources r) (_zone_callbacks r) (_source_callbacks r).
Definition set_source_state (v : gmap Z (gmap string string)) (r : Russound) :=
  mk_Russound (_cmd_queue r) v (_zone_state r) (_watched_zones r)
              (_watched_sources r) (_zone_callbacks r) (_source_callbacks r).
Definition set_zone_state (v : gmap ZoneID (gmap string string)) (r : Russound) :=
  mk_Russound (_cmd_queue r) (_source_state r) v (_watched_zones r)
              (_watched_sources r) (_zone_callbacks r) (_source_callbacks r).
Definition set_watched_zones (v : gset ZoneID) (r : Russound) :=
  mk_Russound (_cmd_queue r) (_source_state r) (_zone_state r) v
              (_watched_sources r) (_zone_callbacks r) (_source_callbacks r).
Definition set_watched_sources (v : gset Z) (r : Russound) :=
  mk_Russound (_cmd_queue r) (_source_state r) (_zone_state r)
              (_watched_zones r) v (_zone_callbacks r) (_source_callbacks r).
Definition set_zone_callbacks (v : list callback) (r : Russound) :=
  mk_Russound (_cmd_queue r) (_source_state r) (_zone_state r)
              (_watched_zones r) (_watched_sources r) v (_source_callbacks r).
Definition set_source_callbacks (v : list callback) (r : Russound) :=
  mk_Russound (_cmd_queue r) (_source_state r) (_zone_state r)
              (_watched_zones r) (_watched_sources r) (_zone_callbacks r) v.

(** *** Synchronous code: state, trace and exceptions

    A raised exception keeps the state reached so far, as in Python. *)

Definition M (A : Type) : Type := World -> outcome A * World.

Definition ret {A} (a : A) : M A := fun w => (Returned a, w).

Definition raise {A} (e : exn) : M A := fun w => (Raised e, w).

Definition bind {A B} (m : M A) (f : A -> M B) : M B :=
  fun w =>
    match m w with
    | (Returned a, w') => f a w'
    | (Raised e, w') => (Raised e, w')
    end.

Declare Scope session_scope.
Delimit Scope session_scope with session.
Notation "x <- m ;; k" := (bind m (fun x => k))
  (at level 20, m at level 99, k at level 200, only parsing) : session_scope.
Notation "m ;; k" := (bind m (fun _ => k))
  (at level 100, k at level 200, only parsing, right associativity)
  : session_scope.
Local Open Scope session_scope.

(** [try: body except ...: handler] *)
Definition try_except {A} (body : M A) (handler : exn -> M A) : M A :=
  fun w =>
    match body w with
    | (Returned a, w') => (Returned a, w')
    | (Raised e, w') => handler e w'
    end.

Definition gets {A} (f : Russound -> A) : M A :=
  fun w => (Returned (f (self w)), w).

Definition modify (f : Russound -> Russound) : M unit :=
  fun w => (Returned tt, set_self f w).

Definition emit (e : event) : M unit :=
  fun w => (Returned tt, mk_World (self w) (trace w ++ [e]) (next_future w)).

(** [d[k]] on a dict *)
Definition subscript `{Countable K} {V} (d : gmap K V) (k : K) : M V :=
  match d !! k with
  | Some v => ret v
  | None => raise KeyError
  end.

(** [for x in xs: body(x)] *)
Fixpoint for_each {A} (xs : list A) (body : A -> M unit) : M unit :=
  match xs with
  | [] => ret tt
  | x :: xs' => body x ;; for_each xs' body
  end.

(** [s[0]] on a str *)
Definition first_char (s : string) : M ascii :=
  match s with
  | String c _ => ret c
  | EmptyString => raise IndexError
  end.

(** truth value of a group of [groupdict()]: [None] and the empty string
    are false *)
Definition truthy (g : option string) : bool :=
  match g with
  | Some (String _ _) => true
  | _ => false
  end.

(** the text of a group that took part in the match *)
Definition group_text (g : option string) : string := default EmptyString g.

(** ** The state cache *)

Definition _retrieve_cached_zone_variable (zone_id : ZoneID) (name : string)
  : M string :=
  try_except
    (zs <- gets _zone_state ;;
     zone_state <- subscript zs zone_id ;;
     subscript zone_state (lower name))
    (fun e => match e with
              | KeyError => raise UncachedVariable
              | _ => raise e
              end).

Definition _store_cached_zone_variable (zone_id : ZoneID) (name value : string)
  : M unit :=
  zs <- gets _zone_state ;;
  let zone_state := default ∅ (zs !! zone_id) in
  let name := lower name in
  modify (set_zone_state (<[zone_id := <[name := value]> zone_state]> zs)) ;;
  cbs <- gets _zone_callbacks ;;
  for_each cbs (fun cb => emit (ZoneCallback cb zone_id name value)).

Definition _retrieve_cached_source_variable (source_id : Z) (name : string)
  : M string :=
  try_except
    (ss <- gets _source_state ;;
     source_state <- subscript ss source_id ;;
     subscript source_state (lower name))
    (fun e => match e with
              | KeyError => raise UncachedVariable
              | _ => raise e
              end).

Definition _store_cached_source_variable (source_id : Z) (name value : string)
  : M unit :=
  ss <- gets _source_state ;;
  let source_state := default ∅ (ss !! source_id) in
  let name := lower name in
  modify (set_source_state (<[source_id := <[name := value]> source_state]> ss)) ;;
  cbs <- gets _source_callbacks ;;
  for_each cbs (fun cb => emit (SourceCallback cb source_id name value)).

(** ** Line processing *)

Definition _process_response (res : string) : M (ascii * option string) :=
  let s := strip res in
  ty <- first_char s ;;
  let payload := slice_from 2 s in
  if Ascii.eqb ty "E" then
    emit (LogError payload) ;;
    raise (CommandException payload)
  else
    match _re_response_match payload with
    | None => ret (ty, None)
    | Some p =>
        (if truthy (g_source p) then
           let source_id := int (group_text (g_source p)) in
           _store_cached_source_variable source_id (g_variable p) (g_value p)
         else if truthy (g_zone p) then
           let zone_id := mk_ZoneID (int (group_text (g_zone p)))
                                    (int (group_text (g_controller p))) in
           _store_cached_zone_variable zone_id (g_variable p) (g_value p)
         else ret tt) ;;
        ret (ty, Some (g_value p))
    end.

(** ** The IO loop

    [_ioloop] is a generator that waits on two futures, the next queued
    command and the next line of the socket.  It is modelled as a step
    function over the two things that can happen to it.  The mode is the
    loop's own position: [Idle] in the outer loop, [Pending fut] in the
    inner loop that waits for the terminal line of the command whose
    future is [fut], [Exited e] once an exception has left the loop.  When
    both futures of the outer loop are done at once the source handles the
    line first and the command second: that is a [LineRead] step followed
    by a [CommandTaken] step. *)

Inductive loop_mode :=
| Idle
| Pending (fut : future)
| Exited (e : exn).

Inductive loop_event :=
| LineRead (response : string)
| CommandTaken.

Definition carriage_return : string := String "013"%char EmptyString.

(** outer loop, [net_future in done] *)
Definition on_line_idle (response : string) : M unit :=
  try_except
    (_process_response response ;; ret tt)
    (fun e => match e with
              | CommandException _ => ret tt
              | _ => raise e
              end).

(** outer loop, [queue_future in done]: write the command *)
Definition on_command (cmd : string) : M unit :=
  emit (WireWrite (cmd +:+ carriage_return)).

(** inner loop, one line; [true] when the loop is left by [break] *)
Definition on_line_pending (fut : future) (response : string) : M bool :=
  try_except
    (r <- _process_response response ;;
     let '(ty, value) := r in
     if Ascii.eqb ty "S" then
       emit (SetResult fut (from_option PyStr PyNone value)) ;;
       ret true
     else ret false)
    (fun e => match e with
              | CommandException _ =>
                  emit (SetException fut e) ;;
                  ret true
              | _ => raise e
              end).

Definition _ioloop_step (ev : loop_event) (st : loop_mode * World)
  : option (loop_mode * World) :=
  let '(mode, w) := st in
  match mode, ev with
  | Idle, LineRead response =>
      match on_line_idle response w with
      | (Returned _, w') => Some (Idle, w')
      | (Raised e, w') => Some (Exited e, w')
      end
  | Idle, CommandTaken =>
      match _cmd_queue (self w) with
      | [] => None
      | (cmd, fut) :: rest =>
          match (modify (set_cmd_queue rest) ;; on_command cmd) w with
          | (Returned _, w') => Some (Pending fut, w')
          | (Raised e, w') => Some (Exited e, w')
          end
      end
  | Pending fut, LineRead response =>
      match on_line_pending fut response w with
      | (Returned true, w') => Some (Idle, w')
      | (Returned false, w') => Some (Pending fut, w')
      | (Raised e, w') => Some (Exited e, w')
      end
  | Pending _, CommandTaken => None
  | Exited _, _ => None
  end.

Fixpoint _ioloop (evs : list loop_event) (st : loop_mode * World)
  : option (loop_mode * World) :=
  match evs with
  | [] => Some st
  | ev :: evs' =>
      match _ioloop_step ev st with
      | Some st' => _ioloop evs' st'
      | None => None
      end
  end.

(** ** Coroutines

    A session operation that sends a command suspends on the command's
    future.  It resumes with the future's outcome on the session as it is
    at that time, which the loop may have changed in between. *)

Inductive coro (A : Type) :=
| Finished (r : outcome A) (w : World)
| Awaiting (fut : future) (w : World) (k : outcome pyval -> World -> coro A).
Arguments Finished {A} r w.
Arguments Awaiting {A} fut w k.

Definition Task (A : Type) : Type := World -> coro A.

(** synchronous code run inside a coroutine *)
Definition lift {A} (m : M A) : Task A :=
  fun w => let '(r, w') := m w in Finished r w'.

Fixpoint coro_bind {A B} (c : coro A) (f : A -> Task B) : coro B :=
  match c with
  | Finished (Returned a) w => f a w
  | Finished (Raised e) w => Finished (Raised e) w
  | Awaiting fut w k => Awaiting fut w (fun r w' => coro_bind (k r w') f)
  end.

Definition task_bind {A B} (t : Task A) (f : A -> Task B) : Task B :=
  fun w => coro_bind (t w) f.

Definition enqueue (item : string * future) (r : Russound) : Russound :=
  set_cmd_queue (_cmd_queue r ++ [item]) r.

Definition new_future (w : World) : World :=
  mk_World (self w) (trace w) (S (next_future w)).

(** [_send_cmd]: a new future is queued with the command, then awaited;
    the queue is unbounded, so [put] does not suspend *)
Definition _send_cmd (cmd : string) : Task pyval :=
  fun w =>
    let fut := next_future w in
    Awaiting fut (set_self (enqueue (cmd, fut)) (new_future w))
             (fun r w' => Finished r w').

(** *** Attribute lookup

    The attributes of a session are the fields of [Russound]; the source
    reaches each of them by name.  A name that [__init__] did not create
    (and that is no method of the class) raises [AttributeError].  The
    lookup below is for the attributes that hold a set of source ids. *)

Definition instance_attributes : list string :=
  ["_loop"; "_host"; "_port"; "_ioloop_future"; "_cmd_queue";
   "_source_state"; "_zone_state"; "_watched_zones"; "_watched_sources";
   "_zone_callbacks"; "_source_callbacks"].

Definition getattr_source_set (name : string) : M (gset Z) :=
  if String.eqb name "_watched_sources" then gets _watched_sources
  else raise (AttributeError name).

(** ** Session operations *)

Definition add_zone_callback (cb : callback) : M unit :=
  modify (fun r => set_zone_callbacks (_zone_callbacks r ++ [cb]) r).

Definition add_source_callback (cb : callback) : M unit :=
  modify (fun r => set_source_callbacks (_source_callbacks r ++ [cb]) r).

Definition get_zone_variable (zone_id : ZoneID) (variable : string)
  : Task pyval :=
  fun w =>
    match _retrieve_cached_zone_variable zone_id variable w with
    | (Returned s, w') => Finished (Returned (PyStr s)) w'
    | (Raised UncachedVariable, w') =>
        _send_cmd ("GET " +:+ ZoneIDOps.device_str zone_id +:+ "." +:+ variable) w'
    | (Raised e, w') => Finished (Raised e) w'
    end.

Definition get_cached_zone_variable (zone_id : ZoneID) (variable : string)
           (default : pyval) : M pyval :=
  try_except
    (s <- _retrieve_cached_zone_variable zone_id variable ;; ret (PyStr s))
    (fun e => match e with
              | UncachedVariable => ret default
              | _ => raise e
              end).

Definition watch_zone (zone_id : ZoneID) : Task pyval :=
  task_bind
    (_send_cmd ("WATCH " +:+ ZoneIDOps.device_str zone_id +:+ " ON"))
    (fun r =>
       lift (modify (fun s => set_watched_zones ({[zone_id]} ∪ _watched_zones s) s) ;;
             ret r)).

(** [set.remove]: [KeyError] when the element is absent *)
Definition set_remove `{Countable K} (x : K) (s : gset K) : M (gset K) :=
  if decide (x ∈ s) then ret (s ∖ {[x]}) else raise KeyError.

Definition unwatch_zone (zone_id : ZoneID) : Task pyval :=
  task_bind
    (lift (zs <- gets _watched_zones ;;
           zs' <- set_remove zone_id zs ;;
           modify (set_watched_zones zs')))
    (fun _ =>
       _send_cmd ("WATCH " +:+ ZoneIDOps.device_str zone_id +:+ " OFF")).

(** [source_id] is already an integer here, so [int(source_id)] is the
    identity *)
Definition watch_source (source_id : Z) : Task pyval :=
  task_bind
    (_send_cmd ("WATCH S[" +:+ fmt_d source_id +:+ "] ON"))
    (fun r =>
       lift (ws <- getattr_source_set "_watched_source" ;;
             modify (set_watched_sources ({[source_id]} ∪ ws)) ;;
             ret r)).

Definition unwatch_source (source_id : Z) : Task pyval :=
  task_bind
    (lift (ws <- getattr_source_set "_watched_sources" ;;
           ws' <- set_remove source_id ws ;;
           modify (set_watched_sources ws')))
    (fun _ =>
       _send_cmd ("WATCH S[" +:+ fmt_d source_id +:+ "] OFF")).

(** ** Further session operations *)

(** [set_zone_variable] returns the coroutine of [_send_cmd] without
    [yield from]; the [asyncio.coroutine] wrapper of a function that is
    not a generator awaits such a result, so the caller gets the command's
    outcome all the same.  [value] is the text [%s] makes of the value. *)
Definition set_zone_variable (zone_id : ZoneID) (variable value : string)
  : Task pyval :=
  _send_cmd ("SET " +:+ ZoneIDOps.device_str zone_id +:+ "." +:+ variable
             +:+ "=" +:+ q +:+ value +:+ q).

Definition set_source_variable (source_id : Z) (variable value : string)
  : Task pyval :=
  _send_cmd ("SET S[" +:+ fmt_d source_id +:+ "]." +:+ variable
             +:+ "=" +:+ q +:+ value +:+ q).

Definition get_source_variable (source_id : Z) (variable : string)
  : Task pyval :=
  fun w =>
    match _retrieve_cached_source_variable source_id variable w with
    | (Returned s, w') => Finished (Returned (PyStr s)) w'
    | (Raised UncachedVariable, w') =>
        _send_cmd ("GET S[" +:+ fmt_d source_id +:+ "]." +:+ variable) w'
    | (Raised e, w') => Finished (Raised e) w'
    end.

Definition get_cached_source_variable (source_id : Z) (variable : string)
           (default : pyval) : M pyval :=
  try_except
    (s <- _retrieve_cached_source_variable source_id variable ;; ret (PyStr s))
    (fun e => match e with
              | UncachedVariable => ret default
              | _ => raise e
              end).

(** [list.remove(x)]: the first occurrence of [x] is taken out; [None]
    stands for the [ValueError] raised when there is none *)
Fixpoint list_remove (x : callback) (l : list callback) : option (list callback) :=
  match l with
  | [] => None
  | y :: l' =>
      if decide (y = x) then Some l'
      else match list_remove x l' with
           | Some r => Some (y :: r)
           | None => None
           end
  end.

(** an exception of a built-in that the session code never catches *)
Inductive builtin_error := ValueError.

Definition remove_zone_callback (cb : callback) (w : World)
  : builtin_error + World :=
  match list_remove cb (_zone_callbacks (self w)) with
  | Some l => inr (set_self (set_zone_callbacks l) w)
  | None => inl ValueError
  end.

(** the source takes a [source_id] here and does not use it *)
Definition remove_source_callback (source_id : Z) (cb : callback) (w : World)
  : builtin_error + World :=
  match list_remove cb (_source_callbacks (self w)) with
  | Some l => inr (set_self (set_source_callbacks l) w)
  | None => inl ValueError
  end.

(** the session a coroutine has reached, finished or suspended *)
Definition session_of {A} (c : coro A) : World :=
  match c with
  | Finished _ w => w
  | Awaiting _ w _ => w
  end.

(** [_send_cmd] called for each command in turn, none resumed yet *)
Fixpoint send_all (cmds : list string) (w : World) : World :=
  match cmds with
  | [] => w
  | cmd :: cmds' => send_all cmds' (session_of (_send_cmd cmd w))
  end.

(** ** Reading the session

    Vocabulary for the statements below: what the cache holds, and the
    session after a store, after the update of a matched line and after
    an event. *)

Definition cached_zone (r : Russound) (zone_id : ZoneID) (name : string)
  : option string :=
  zone_state ← _zone_state r !! zone_id; zone_state !! lower name.

Definition cached_source (r : Russound) (source_id : Z) (name : string)
  : option string :=
  source_state ← _source_state r !! source_id; source_state !! lower name.

(** the session after a store into the zone cache *)
Definition zone_stored (zone_id : ZoneID) (name value : string) (w : World)
  : World :=
  let zs := _zone_state (self w) in
  mk_World
    (set_zone_state
       (<[zone_id := <[lower name := value]> (default ∅ (zs !! zone_id))]> zs)
       (self w))
    (trace w ++ map (fun cb => ZoneCallback cb zone_id (lower name) value)
                    (_zone_callbacks (self w)))
    (next_future w).

(** the session after a store into the source cache *)
Definition source_stored (source_id : Z) (name value : string) (w : World)
  : World :=
  let ss := _source_state (self w) in
  mk_World
    (set_source_state
       (<[source_id := <[lower name := value]> (default ∅ (ss !! source_id))]> ss)
       (self w))
    (trace w ++ map (fun cb => SourceCallback cb source_id (lower name) value)
                    (_source_callbacks (self w)))
    (next_future w).

(** the session after the update a match stands for *)
Definition applied (p : groupdict) (w : World) : World :=
  match g_source p with
  | Some src => source_stored (int src) (g_variable p) (g_value p) w
  | None =>
      zone_stored (mk_ZoneID (int (group_text (g_zone p)))
                             (int (group_text (g_controller p))))
                  (g_variable p) (g_value p) w
  end.

(** the cache holds the value of the match for the entity it addresses *)
Definition addressed_update (p : groupdict) (r : Russound) : Prop :=
  match g_source p with
  | Some src => cached_source r (int src) (g_variable p) = Some (g_value p)
  | None =>
      cached_zone r (mk_ZoneID (int (group_text (g_zone p)))
                               (int (group_text (g_controller p))))
                  (g_variable p)
      = Some (g_value p)
  end.

(** the event resolves a future *)
Definition is_resolution (e : event) : bool :=
  match e with
  | SetResult _ _ | SetException _ _ => true
  | _ => false
  end.

(** the session after an error has been logged *)
Definition error_logged (payload : string) (w : World) : World :=
  mk_World (self w) (trace w ++ [LogError payload]) (next_future w).

Definition emitted (e : event) (w : World) : World :=
  mk_World (self w) (trace w ++ [e]) (next_future w).

(** ** Reading the trace of the loop *)

(** the data written to the socket, in order *)
Definition written (tr : list event) : list string :=
  omap (fun e => match e with
                 | WireWrite data => Some data
                 | _ => None
                 end) tr.

(** the futures resolved, by result or by exception, in order *)
Definition resolved (tr : list event) : list future :=
  omap (fun e => match e with
                 | SetResult fut _ | SetException fut _ => Some fut
                 | _ => None
                 end) tr.

(** the future the loop is waiting to resolve *)
Definition in_flight (mode : loop_mode) : list future :=
  match mode with
  | Pending fut => [fut]
  | _ => []
  end.

(** writes and resolutions alternate along the trace: no write while a
    command is outstanding ([busy]), no resolution while none is; the
    result is whether a command is outstanding at the end *)
Fixpoint one_in_flight (busy : bool) (tr : list event) : option bool :=
  match tr with
  | [] => Some busy
  | WireWrite _ :: tr' => if busy then None else one_in_flight true tr'
  | SetResult _ _ :: tr' | SetException _ _ :: tr' =>
      if busy then one_in_flight false tr' else None
  | _ :: tr' => one_in_flight busy tr'
  end.

(** the events of a trace that are neither writes nor resolutions *)
Definition quiet (evs : list event) : Prop :=
  written evs = [] /\ resolved evs = []
  /\ forall busy, one_in_flight busy evs = Some busy.

(** the part of the session that line processing leaves alone *)
Definition same_frame (w w' : World) : Prop :=
  _cmd_queue (self w') = _cmd_queue (self w)
  /\ _watched_zones (self w') = _watched_zones (self w)
  /\ _watched_sources (self w') = _watched_sources (self w)
  /\ _zone_callbacks (self w') = _zone_callbacks (self w)
  /\ _source_callbacks (self w') = _source_callbacks (self w)
  /\ next_future w' = next_future w.

(** the account of a stretch of the loop: the commands [taken] off the
    queue, the events [new] added to the trace, and the futures [pend]
    still outstanding at its end *)
Definition accounts (mode : loop_mode) (w w' : World)
           (taken : list (string * future)) (new : list event)
           (pend : list future) : Prop :=
  _cmd_queue (self w) = (taken ++ _cmd_queue (self w'))%list
  /\ trace w' = (trace w ++ new)%list
  /\ next_future w' = next_future w
  /\ written new = map (fun c => fst c +:+ carriage_return) taken
  /\ (in_flight mode ++ map snd taken = resolved new ++ pend)%list
  /\ one_in_flight (bool_decide (in_flight mode <> [])) new
     = Some (bool_decide (pend <> [])).

(** the futures outstanding after a step *)
Definition outstanding (mode mode' : loop_mode) : list future :=
  match mode' with
  | Exited _ => in_flight mode
  | _ => in_flight mode'
  end.

(** the loop has a command in flight *)
Definition busy (mode : loop_mode) : bool :=
  match mode with
  | Pending _ => true
  | _ => false
  end.

(** the characters of a [%d] text *)
Definition sign_or_digit (c : ascii) : bool :=
  isdecimal c || Ascii.eqb c "-".

(** ** Reading a payload

    Vocabulary for the greedy [variable] group. *)

(** the text begins with an equals sign and a double quote *)
Definition starts_assign (s : string) : bool :=
  match s with
  | String c (String d _) => Ascii.eqb c "=" && Ascii.eqb d dquote
  | _ => false
  end.

(** the value holds an equals sign and a double quote that can be reached
    from its start without crossing whitespace: the text on which the
    greedy [variable] group runs on past the first equals sign *)
Fixpoint resplits (val : string) : bool :=
  match val with
  | EmptyString => false
  | String c val' => starts_assign val || non_space c && resplits val'
  end.

(** what follows the [variable] group *)
Definition assignment_tail (a b c : option string) (variable : string)
  : string -> option groupdict :=
  lit ("=" +:+ q)
    (star not_linebreak (fun value =>
       lit q (fun _ => Some (mk_groupdict a b c variable value)))
       EmptyString).

(** * Properties *)

(** ** The model on concrete inputs *)

Example strip_line :
  strip (" S S[3].name=x" +:+ String "013"%char (String "010"%char "")) = "S S[3].name=x".
Proof. reflexivity. Qed.

Example lower_name : lower "Name" = "name".
Proof. reflexivity. Qed.

Example int_0042 : int "0042" = 42.
Proof. reflexivity. Qed.

Example fmt_d_examples : fmt_d 12 = "12" /\ fmt_d 0 = "0" /\ fmt_d (-5) = "-5".
Proof. repeat split. Qed.

Example re_source :
  _re_response_match ("S[3].name=" +:+ q +:+ "Kitchen" +:+ q)
  = Some (mk_groupdict (Some "3") None None "name" "Kitchen").
Proof. reflexivity. Qed.

Example re_zone :
  _re_response_match ("C[2].Z[5].status=" +:+ q +:+ "ON" +:+ q)
  = Some (mk_groupdict None (Some "2") (Some "5") "status" "ON").
Proof. reflexivity. Qed.

Example re_ack : _re_response_match "" = None.
Proof. reflexivity. Qed.

(** the greedy variable group runs to the last equals-quote pair it can
    reach *)
Example re_greedy :
  _re_response_match ("S[3].a=" +:+ q +:+ "b=" +:+ q +:+ "c" +:+ q)
  = Some (mk_groupdict (Some "3") None None ("a=" +:+ q +:+ "b") "c").
Proof. reflexivity. Qed.

Example device_str_2_5 : ZoneIDOps.device_str (mk_ZoneID 5 2) = "C[2].Z[5]".
Proof. reflexivity. Qed.

(** one command under interleaving: a miss queues the command, the loop
    writes it, an unsolicited line updates the cache without resolving
    it, and the terminal line resolves it with its value *)
Example correlation_under_interleaving :
  let w0 := snd (add_zone_callback 9%nat (mk_World __init__ [] 0%nat)) in
  let z := mk_ZoneID 5 2 in
  let w1 :=
    match get_zone_variable z "volume" w0 with
    | Awaiting _ w _ => w
    | Finished _ w => w
    end in
  _ioloop [CommandTaken;
           LineRead ("N C[2].Z[5].status=" +:+ q +:+ "ON" +:+ q);
           LineRead ("S C[2].Z[5].volume=" +:+ q +:+ "10" +:+ q)]
          (Idle, w1)
  = Some (Idle,
          mk_World
            (set_zone_state
               {[ z := {[ "status" := "ON"; "volume" := "10" ]} ]}
               (self w0))
            [WireWrite ("GET C[2].Z[5].volume" +:+ carriage_return);
             ZoneCallback 9%nat z "status" "ON";
             ZoneCallback 9%nat z "volume" "10";
             SetResult 0%nat (PyStr "10")]
            1%nat).
Proof. vm_compute. reflexivity. Qed.

(** ** The cache, equationally *)

Lemma World_eta (w : World) : mk_World (self w) (trace w) (next_future w) = w.
Proof. destruct w; reflexivity. Qed.

Lemma for_each_emit {A} (f : A -> event) (xs : list A) (w : World) :
  for_each xs (fun x => emit (f x)) w
  = (Returned tt, mk_World (self w) (trace w ++ map f xs) (next_future w)).
Proof.
  revert w; induction xs as [|x xs IH]; intros w; simpl.
  - rewrite app_nil_r, World_eta; reflexivity.
  - unfold bind at 1, emit at 1. rewrite IH; simpl.
    rewrite <- app_assoc; reflexivity.
Qed.

Lemma store_zone_eq (zone_id : ZoneID) (name value : string) (w : World) :
  _store_cached_zone_variable zone_id name value w
  = (Returned tt, zone_stored zone_id name value w).
Proof.
  unfold _store_cached_zone_variable, bind, gets, modify; simpl.
  rewrite for_each_emit; reflexivity.
Qed.

Lemma store_source_eq (source_id : Z) (name value : string) (w : World) :
  _store_cached_source_variable source_id name value w
  = (Returned tt, source_stored source_id name value w).
Proof.
  unfold _store_cached_source_variable, bind, gets, modify; simpl.
  rewrite for_each_emit; reflexivity.
Qed.

Lemma retrieve_zone_eq (zone_id : ZoneID) (name : string) (w : World) :
  _retrieve_cached_zone_variable zone_id name w
  = (match cached_zone (self w) zone_id name with
     | Some s => Returned s
     | None => Raised UncachedVariable
     end, w).
Proof.
  unfold _retrieve_cached_zone_variable, cached_zone, try_except, bind, gets,
    subscript; simpl.
  destruct (_zone_state (self w) !! zone_id) as [st|]; simpl; [|reflexivity].
  destruct (st !! lower name); reflexivity.
Qed.

Lemma retrieve_source_eq (source_id : Z) (name : string) (w : World) :
  _retrieve_cached_source_variable source_id name w
  = (match cached_source (self w) source_id name with
     | Some s => Returned s
     | None => Raised UncachedVariable
     end, w).
Proof.
  unfold _retrieve_cached_source_variable, cached_source, try_except, bind,
    gets, subscript; simpl.
  destruct (_source_state (self w) !! source_id) as [st|]; simpl; [|reflexivity].
  destruct (st !! lower name); reflexivity.
Qed.

Lemma cached_zone_stored (zone_id z' : ZoneID) (name n' value : string) (w : World) :
  cached_zone (self (zone_stored zone_id name value w)) z' n'
  = if decide (z' = zone_id /\ lower n' = lower name) then Some value
    else cached_zone (self w) z' n'.
Proof.
  unfold cached_zone, zone_stored; simpl.
  destruct (decide (z' = zone_id)) as [->|Hz].
  - rewrite lookup_insert_eq; simpl.
    destruct (decide (lower n' = lower name)) as [->|Hn].
    + rewrite lookup_insert_eq. rewrite decide_True by done. reflexivity.
    + rewrite lookup_insert_ne by done. rewrite decide_False by tauto.
      destruct (_zone_state (self w) !! zone_id); reflexivity.
  - rewrite lookup_insert_ne by done. rewrite decide_False by tauto.
    reflexivity.
Qed.

Lemma cached_source_stored (source_id s' : Z) (name n' value : string) (w : World) :
  cached_source (self (source_stored source_id name value w)) s' n'
  = if decide (s' = source_id /\ lower n' = lower name) then Some value
    else cached_source (self w) s' n'.
Proof.
  unfold cached_source, source_stored; simpl.
  destruct (decide (s' = source_id)) as [->|Hz].
  - rewrite lookup_insert_eq; simpl.
    destruct (decide (lower n' = lower name)) as [->|Hn].
    + rewrite lookup_insert_eq. rewrite decide_True by done. reflexivity.
    + rewrite lookup_insert_ne by done. rewrite decide_False by tauto.
      destruct (_source_state (self w) !! source_id); reflexivity.
  - rewrite lookup_insert_ne by done. rewrite decide_False by tauto.
    reflexivity.
Qed.

(** ** Text lemmas *)

Lemma append_cons (x : ascii) (a b : string) :
  String x a +:+ b = String x (a +:+ b).
Proof. reflexivity. Qed.

Lemma append_assoc (a b c : string) : (a +:+ b) +:+ c = a +:+ (b +:+ c).
Proof.
  induction a as [|x a IH]; [reflexivity|].
  rewrite !append_cons, IH; reflexivity.
Qed.

Lemma append_nil_r (a : string) : a +:+ EmptyString = a.
Proof.
  induction a as [|x a IH]; [reflexivity|].
  rewrite append_cons, IH; reflexivity.
Qed.

(** ** Zone identity *)

(** C7.  Two [ZoneID]s compare equal exactly when their controller
    indices and their zone indices are equal; the comparison is by value
    (it coincides with equality of the records, so two zone ids built
    separately from the same pair are one cache key), and zone ids that
    compare equal have equal hashes, whatever the hash of strings is. *)
Theorem ZoneID_eq_structural (str_hash : string -> Z) (a b : ZoneID) :
  (ZoneIDOps.__eq__ a b = true
   <-> controller a = controller b /\ zone a = zone b)
  /\ (ZoneIDOps.__eq__ a b = true <-> a = b)
  /\ (ZoneIDOps.__eq__ a b = true
      -> ZoneIDOps.__hash__ str_hash a = ZoneIDOps.__hash__ str_hash b).
Proof.
  assert (Heq : ZoneIDOps.__eq__ a b = true <-> a = b).
  { unfold ZoneIDOps.__eq__. rewrite andb_true_iff, !Z.eqb_eq.
    destruct a as [za ca], b as [zb cb]; simpl. split.
    - intros [-> ->]; reflexivity.
    - intros [= -> ->]; split; reflexivity. }
  split; [|split].
  - rewrite Heq. split.
    + intros ->; split; reflexivity.
    + destruct a, b; simpl; intros [-> ->]; reflexivity.
  - exact Heq.
  - intros H. apply Heq in H. subst b. reflexivity.
Qed.

Lemma ZoneID_eq_structural_witness :
  ZoneIDOps.__eq__ (mk_ZoneID 5 2) (mk_ZoneID (2 + 3) (1 + 1)) = true
  /\ ZoneIDOps.__hash__ (fun s => Z.of_nat (String.length s)) (mk_ZoneID 5 2)
     = ZoneIDOps.__hash__ (fun s => Z.of_nat (String.length s))
                          (mk_ZoneID (2 + 3) (1 + 1)).
Proof.
  split; [reflexivity|].
  apply (ZoneID_eq_structural (fun s => Z.of_nat (String.length s))
                              (mk_ZoneID 5 2) (mk_ZoneID (2 + 3) (1 + 1))).
  reflexivity.
Defined.

(** ** The cache *)

(** C8.  After a value is stored under a name, for a zone or for a
    source, reading the same entity under any name with the same
    lower-case form returns that value; a later store under such a name
    replaces it. *)
Theorem cache_case_insensitive
    (zone_id : ZoneID) (source_id : Z) (name name' name2 value value2 : string)
    (w : World) :
  lower name' = lower name ->
  lower name2 = lower name ->
  let w1 := snd (_store_cached_zone_variable zone_id name value w) in
  let w2 := snd (_store_cached_zone_variable zone_id name2 value2 w1) in
  let v1 := snd (_store_cached_source_variable source_id name value w) in
  let v2 := snd (_store_cached_source_variable source_id name2 value2 v1) in
  _retrieve_cached_zone_variable zone_id name' w1 = (Returned value, w1)
  /\ _retrieve_cached_zone_variable zone_id name' w2 = (Returned value2, w2)
  /\ _retrieve_cached_source_variable source_id name' v1 = (Returned value, v1)
  /\ _retrieve_cached_source_variable source_id name' v2 = (Returned value2, v2).
Proof.
  intros Hn Hn2 w1 w2 v1 v2. subst w1 w2 v1 v2.
  rewrite !store_zone_eq, !store_source_eq; simpl.
  rewrite !retrieve_zone_eq, !retrieve_source_eq.
  rewrite !cached_zone_stored, !cached_source_stored.
  rewrite !decide_True by (split; congruence).
  repeat split.
Qed.

Lemma cache_case_insensitive_witness :
  let w := mk_World __init__ [] 0%nat in
  let w1 := snd (_store_cached_zone_variable (mk_ZoneID 5 2) "Name" "Kitchen" w) in
  _retrieve_cached_zone_variable (mk_ZoneID 5 2) "name" w1
  = (Returned "Kitchen", w1).
Proof.
  apply (cache_case_insensitive (mk_ZoneID 5 2) 3 "Name" "name" "NAME"
           "Kitchen" "Den" (mk_World __init__ [] 0%nat));
    reflexivity.
Defined.

(** C5.  [get_cached_zone_variable] returns the cached value when the
    zone has one under the lower-cased name and the caller's default
    otherwise; either way it returns (it raises nothing) and the session
    is left as it was: nothing is queued or written, and the cache is
    unchanged. *)
Theorem get_cached_zone_variable_total
    (zone_id : ZoneID) (variable : string) (default : pyval) (w : World) :
  get_cached_zone_variable zone_id variable default w
  = (Returned (match cached_zone (self w) zone_id variable with
               | Some s => PyStr s
               | None => default
               end), w).
Proof.
  unfold get_cached_zone_variable, try_except, bind.
  rewrite retrieve_zone_eq.
  destruct (cached_zone (self w) zone_id variable); reflexivity.
Qed.

(** C4.  [get_zone_variable] on a cached variable finishes at once with
    the cached value and leaves the session as it was (nothing queued);
    on a miss it queues the text [GET C[c].Z[z].variable] with a new
    future and suspends on that future, and when resumed it finishes with
    exactly the outcome of that future. *)
Theorem get_zone_variable_cache_or_command
    (zone_id : ZoneID) (variable : string) (w : World) :
  match cached_zone (self w) zone_id variable with
  | Some s => get_zone_variable zone_id variable w = Finished (Returned (PyStr s)) w
  | None =>
      get_zone_variable zone_id variable w
      = Awaiting (next_future w)
          (mk_World
             (set_cmd_queue
                (_cmd_queue (self w)
                 ++ [("GET C[" +:+ fmt_d (controller zone_id) +:+ "].Z["
                      +:+ fmt_d (zone zone_id) +:+ "]." +:+ variable,
                      next_future w)])
                (self w))
             (trace w) (S (next_future w)))
          (fun r w' => Finished r w')
  end.
Proof.
  unfold get_zone_variable. rewrite retrieve_zone_eq.
  destruct (cached_zone (self w) zone_id variable); [reflexivity|].
  unfold _send_cmd, ZoneIDOps.device_str, set_self, enqueue, new_future; simpl.
  rewrite !append_assoc. reflexivity.
Qed.

(** ** Blank lines *)

Lemma lstrip_blank (s : string) : all isspace s = true -> lstrip s = EmptyString.
Proof.
  induction s as [|c s IH]; simpl; [reflexivity|].
  intros [Hc Hs]%andb_true_iff. rewrite Hc. auto.
Qed.

Lemma strip_blank (s : string) : all isspace s = true -> strip s = EmptyString.
Proof. intros H. unfold strip. rewrite lstrip_blank; [reflexivity | exact H]. Qed.

(** C9.  A line that is empty, or all whitespace, is empty once stripped;
    taking its first character then raises [IndexError]: processing
    returns no result, changes nothing, and the exception leaves the IO
    loop whether or not a command is pending. *)
Theorem blank_line_raises_IndexError (res : string) (w : World) :
  all isspace res = true ->
  _process_response res w = (Raised IndexError, w)
  /\ _ioloop_step (LineRead res) (Idle, w) = Some (Exited IndexError, w)
  /\ forall fut,
       _ioloop_step (LineRead res) (Pending fut, w) = Some (Exited IndexError, w).
Proof.
  intros H.
  assert (Hp : _process_response res w = (Raised IndexError, w)).
  { unfold _process_response. rewrite (strip_blank res H). reflexivity. }
  split; [exact Hp|]. split.
  - unfold _ioloop_step, on_line_idle, try_except, bind. rewrite Hp. reflexivity.
  - intros fut.
    unfold _ioloop_step, on_line_pending, try_except, bind. rewrite Hp.
    reflexivity.
Qed.

Lemma blank_line_raises_IndexError_witness :
  _process_response (String "013"%char (String "010"%char EmptyString))
                    (mk_World __init__ [] 0%nat)
  = (Raised IndexError, mk_World __init__ [] 0%nat).
Proof.
  apply (blank_line_raises_IndexError
           (String "013"%char (String "010"%char EmptyString))
           (mk_World __init__ [] 0%nat)).
  reflexivity.
Defined.

(** ** Watch lists *)

(** C10.  [unwatch_zone] removes the zone from the watched set first.
    For a zone that is not watched the removal raises [KeyError] and the
    session is left as it was: nothing is queued, nothing is written.
    For a watched zone the zone is taken out of the set, the text
    [WATCH C[c].Z[z] OFF] is queued and the coroutine suspends; whatever
    the command's outcome, failure included, the coroutine finishes with
    that outcome on the session as it then is, so the removal stays. *)
Theorem unwatch_zone_removes_first (zone_id : ZoneID) (w : World) :
  (zone_id ∉ _watched_zones (self w)
   -> unwatch_zone zone_id w = Finished (Raised KeyError) w)
  /\ (zone_id ∈ _watched_zones (self w)
      -> unwatch_zone zone_id w
         = Awaiting (next_future w)
             (mk_World
                (set_cmd_queue
                   (_cmd_queue (self w)
                    ++ [("WATCH C[" +:+ fmt_d (controller zone_id) +:+ "].Z["
                         +:+ fmt_d (zone zone_id) +:+ "] OFF", next_future w)])
                   (set_watched_zones (_watched_zones (self w) ∖ {[zone_id]})
                                      (self w)))
                (trace w) (S (next_future w)))
             (fun r w' => Finished r w')).
Proof.
  unfold unwatch_zone, task_bind, lift, bind, gets, set_remove.
  split; intros H.
  - rewrite decide_False by exact H. simpl. reflexivity.
  - rewrite decide_True by exact H. simpl.
    unfold _send_cmd, ZoneIDOps.device_str, set_self, enqueue, new_future; simpl.
    rewrite !append_assoc. reflexivity.
Qed.

Lemma unwatch_zone_removes_first_witness :
  unwatch_zone (mk_ZoneID 5 2) (mk_World __init__ [] 0%nat)
  = Finished (Raised KeyError) (mk_World __init__ [] 0%nat).
Proof.
  apply (unwatch_zone_removes_first (mk_ZoneID 5 2) (mk_World __init__ [] 0%nat)).
  vm_compute. set_solver.
Defined.

(** the sibling operation on zones: resumed with a successful outcome,
    [watch_zone] adds the zone to the watched set and returns the outcome *)
Lemma watch_zone_adds_zone (zone_id : ZoneID) (w : World) :
  exists k,
    watch_zone zone_id w
    = Awaiting (next_future w)
        (mk_World
           (set_cmd_queue
              (_cmd_queue (self w)
               ++ [("WATCH " +:+ ZoneIDOps.device_str zone_id +:+ " ON",
                    next_future w)])
              (self w))
           (trace w) (S (next_future w)))
        k
    /\ forall (r : pyval) (w' : World),
         k (Returned r) w'
         = Finished (Returned r)
             (set_self (fun s => set_watched_zones
                                   ({[zone_id]} ∪ _watched_zones s) s) w').
Proof.
  eexists. split.
  - unfold watch_zone, task_bind, _send_cmd; simpl. reflexivity.
  - intros r w'. reflexivity.
Qed.

(** the name [watch_source] looks up is not an attribute of the session;
    the name [unwatch_source] looks up is *)
Example watched_source_is_no_attribute :
  existsb (String.eqb "_watched_source") instance_attributes = false
  /\ existsb (String.eqb "_watched_sources") instance_attributes = true.
Proof. split; reflexivity. Qed.

(** C6, what the code does.  [watch_source] queues [WATCH S[id] ON] and
    suspends; resumed with a successful outcome it looks up the attribute
    [_watched_source], which the session does not have, and finishes with
    [AttributeError]: the watched set of the session is not touched and
    the command's result is not returned. *)
Theorem watch_source_raises_AttributeError (source_id : Z) (w : World) :
  exists k,
    watch_source source_id w
    = Awaiting (next_future w)
        (mk_World
           (set_cmd_queue
              (_cmd_queue (self w)
               ++ [("WATCH S[" +:+ fmt_d source_id +:+ "] ON", next_future w)])
              (self w))
           (trace w) (S (next_future w)))
        k
    /\ forall (r : pyval) (w' : World),
         k (Returned r) w' = Finished (Raised (AttributeError "_watched_source")) w'.
Proof.
  eexists. split.
  - unfold watch_source, task_bind, _send_cmd; simpl. reflexivity.
  - intros r w'. simpl. reflexivity.
Qed.

(** ** The grammar: what a match says about the payload *)

Lemma lit_inv {R} (l : string) (k : string -> option R) (s : string) (r : R) :
  lit l k s = Some r -> exists s', s = l +:+ s' /\ k s' = Some r.
Proof.
  revert s; induction l as [|c l IH]; intros s; simpl.
  - intros H; exists s; split; [reflexivity | exact H].
  - destruct s as [|d s]; [discriminate|].
    destruct (Ascii.eqb_spec c d) as [->|]; [|discriminate].
    intros H. destruct (IH _ H) as (s' & -> & Hk).
    exists s'; split; [reflexivity | exact Hk].
Qed.

Lemma one_inv {R} (p : ascii -> bool) (k : string -> option R) (s : string) (r : R) :
  one p k s = Some r -> exists c s', s = String c s' /\ p c = true /\ k s' = Some r.
Proof.
  destruct s as [|c s]; simpl; [discriminate|].
  destruct (p c) eqn:Hp; [|discriminate].
  intros H; exists c, s; auto.
Qed.

Lemma all_app (p : ascii -> bool) (a b : string) :
  all p (a +:+ b) = all p a && all p b.
Proof.
  induction a as [|c a IH]; [reflexivity|].
  rewrite append_cons; simpl. rewrite IH, andb_assoc; reflexivity.
Qed.

Lemma star_inv {R} (p : ascii -> bool) (k : string -> string -> option R)
      (s acc : string) (r : R) :
  star p k acc s = Some r ->
  exists u s', s = u +:+ s' /\ all p u = true /\ k (acc +:+ u) s' = Some r.
Proof.
  revert acc; induction s as [|c s IH]; intros acc; simpl.
  - intros H; exists EmptyString, EmptyString.
    rewrite (append_nil_r acc); repeat split; assumption.
  - assert (Hstop : k acc (String c s) = Some r ->
              exists u s', String c s = u +:+ s' /\ all p u = true
                           /\ k (acc +:+ u) s' = Some r).
    { intros H; exists EmptyString, (String c s).
      rewrite (append_nil_r acc); repeat split; assumption. }
    destruct (p c) eqn:Hp; [|exact Hstop].
    destruct (star p k (acc +:+ String c EmptyString) s) as [r'|] eqn:Hs;
      [|exact Hstop].
    intros [= ->]. destruct (IH _ Hs) as (u & s' & -> & Hu & Hk).
    exists (String c u), s'. rewrite append_assoc in Hk. simpl.
    rewrite Hp, Hu. auto.
Qed.

Lemma plus_inv {R} (p : ascii -> bool) (k : string -> string -> option R)
      (s : string) (r : R) :
  plus p k s = Some r ->
  exists u s', s = u +:+ s' /\ u <> EmptyString /\ all p u = true
               /\ k u s' = Some r.
Proof.
  destruct s as [|c s]; simpl; [discriminate|].
  destruct (p c) eqn:Hp; [|discriminate].
  intros H. destruct (star_inv _ _ _ _ _ H) as (u & s' & -> & Hu & Hk).
  exists (String c u), s'. simpl. rewrite Hp, Hu.
  repeat split; [discriminate | exact Hk].
Qed.

(** the payload of a matched assignment *)
Lemma re_assignment_inv (a b c : option string) (s : string) (p : groupdict) :
  re_assignment a b c s = Some p ->
  g_source p = a /\ g_controller p = b /\ g_zone p = c
  /\ g_variable p <> EmptyString
  /\ all non_space (g_variable p) = true
  /\ all not_linebreak (g_value p) = true
  /\ exists rest,
       s = "." +:+ g_variable p +:+ "=" +:+ q +:+ g_value p +:+ q +:+ rest.
Proof.
  unfold re_assignment. intros H.
  apply lit_inv in H as (s1 & -> & H).
  apply plus_inv in H as (var & s2 & -> & Hne & Hvar & H).
  apply lit_inv in H as (s3 & -> & H).
  apply star_inv in H as (val & s4 & -> & Hval & H).
  apply lit_inv in H as (rest & -> & H).
  injection H as <-. simpl.
  repeat split; try assumption.
  exists rest. rewrite !append_assoc. reflexivity.
Qed.

(** the two address grammars exclude each other: a match names a source
    or a zone with its controller, by non-empty runs of digits *)
Lemma _re_response_match_inv (s : string) (p : groupdict) :
  _re_response_match s = Some p ->
  (g_variable p <> EmptyString
   /\ all non_space (g_variable p) = true
   /\ all not_linebreak (g_value p) = true)
  /\ ((exists src rest,
          g_source p = Some src /\ g_controller p = None /\ g_zone p = None
          /\ src <> EmptyString /\ all isdecimal src = true
          /\ s = "S[" +:+ src +:+ "]." +:+ g_variable p +:+ "=" +:+ q
                 +:+ g_value p +:+ q +:+ rest)
      \/ (exists ctl z d rest,
             g_source p = None /\ g_controller p = Some ctl /\ g_zone p = Some z
             /\ ctl <> EmptyString /\ all isdecimal ctl = true
             /\ z <> EmptyString /\ all isdecimal z = true
             /\ not_linebreak d = true
             /\ s = "C[" +:+ ctl +:+ "]" +:+ String d ("Z[" +:+ z +:+ "]."
                    +:+ g_variable p +:+ "=" +:+ q +:+ g_value p +:+ q +:+ rest))).
Proof.
  unfold _re_response_match, alt. intros H.
  destruct (lit "S[" _ s) as [p'|] eqn:Hs.
  - injection H as ->.
    apply lit_inv in Hs as (s1 & -> & H).
    apply plus_inv in H as (src & s2 & -> & Hne & Hsrc & H).
    apply lit_inv in H as (s3 & -> & H).
    apply re_assignment_inv in H as (Ha & Hb & Hc & Hv1 & Hv2 & Hv3 & rest & ->).
    split; [auto|]. left. exists src, rest.
    repeat split; assumption.
  - clear Hs.
    apply lit_inv in H as (s1 & -> & H).
    apply plus_inv in H as (ctl & s2 & -> & Hne & Hctl & H).
    apply lit_inv in H as (s3 & -> & H).
    apply one_inv in H as (d & s4 & -> & Hd & H).
    apply lit_inv in H as (s5 & -> & H).
    apply plus_inv in H as (z & s6 & -> & Hzne & Hz & H).
    apply lit_inv in H as (s7 & -> & H).
    apply re_assignment_inv in H as (Ha & Hb & Hc & Hv1 & Hv2 & Hv3 & rest & ->).
    split; [auto|]. right. exists ctl, z, d, rest.
    repeat split; assumption.
Qed.

(** ** The grammar: greedy repetition *)

Lemma lit_app {R} (l : string) (k : string -> option R) (s : string) :
  lit l k (l +:+ s) = k s.
Proof.
  induction l as [|c l IH]; [reflexivity|].
  rewrite append_cons; simpl. rewrite Ascii.eqb_refl. exact IH.
Qed.

(** a run of the class is taken whole when the rest of the pattern then
    matches *)
Lemma star_commit {R} (p : ascii -> bool) (k : string -> string -> option R)
      (u s acc : string) (r : R) :
  all p u = true ->
  star p k (acc +:+ u) s = Some r ->
  star p k acc (u +:+ s) = Some r.
Proof.
  revert acc; induction u as [|c u IH]; intros acc.
  - rewrite append_nil_r. intros _ H; exact H.
  - rewrite append_cons. simpl. intros [Hc Hu]%andb_true_iff H.
    rewrite Hc.
    rewrite (IH (acc +:+ String c EmptyString) Hu); [reflexivity|].
    rewrite append_assoc. exact H.
Qed.

Lemma plus_commit {R} (p : ascii -> bool) (k : string -> string -> option R)
      (u s : string) (r : R) :
  u <> EmptyString ->
  all p u = true ->
  star p k u s = Some r ->
  plus p k (u +:+ s) = Some r.
Proof.
  destruct u as [|c u]; [congruence|]. intros _.
  rewrite append_cons. simpl. intros [Hc Hu]%andb_true_iff H.
  rewrite Hc. apply star_commit; assumption.
Qed.

(** the run stops at a character outside the class *)
Lemma star_stop {R} (p : ascii -> bool) (k : string -> string -> option R)
      (c : ascii) (s acc : string) :
  p c = false -> star p k acc (String c s) = k acc (String c s).
Proof. intros H; simpl; rewrite H; reflexivity. Qed.

Local Arguments Ascii.eqb : simpl never.

Lemma re_assignment_unfold (a b c : option string) :
  re_assignment a b c = lit "." (plus non_space (assignment_tail a b c)).
Proof. reflexivity. Qed.

Lemma assignment_tail_none (a b c : option string) (acc val : string) :
  starts_assign val = false ->
  assignment_tail a b c acc (val +:+ q) = None.
Proof.
  unfold assignment_tail.
  destruct val as [|x [|y val]]; simpl.
  - reflexivity.
  - intros _. destruct (Ascii.eqb "=" x); reflexivity.
  - rewrite (Ascii.eqb_sym x), (Ascii.eqb_sym y).
    destruct (Ascii.eqb "=" x); [|reflexivity]. simpl.
    intros ->. reflexivity.
Qed.

Lemma star_tail_none (a b c : option string) (val acc : string) :
  resplits val = false ->
  star non_space (assignment_tail a b c) acc (val +:+ q) = None.
Proof.
  revert acc; induction val as [|x val IH]; intros acc.
  - intros _. reflexivity.
  - intros H. change (resplits (String x val))
      with (starts_assign (String x val) || non_space x && resplits val) in H.
    apply orb_false_iff in H as [Hs Hr].
    rewrite append_cons. simpl star.
    rewrite <- append_cons, (assignment_tail_none a b c acc _ Hs).
    destruct (non_space x); [|reflexivity].
    simpl in Hr. rewrite (IH _ Hr). reflexivity.
Qed.

(** the value runs to the closing quote at the end of the payload *)
Lemma star_value (a b c : option string) (variable val : string) :
  all not_linebreak val = true ->
  star not_linebreak
       (fun value => lit q (fun _ => Some (mk_groupdict a b c variable value)))
       EmptyString (val +:+ q)
  = Some (mk_groupdict a b c variable val).
Proof.
  intros H. apply star_commit; [exact H|]. reflexivity.
Qed.

Lemma re_assignment_match (a b c : option string) (var val : string) :
  var <> EmptyString ->
  all non_space var = true ->
  all not_linebreak val = true ->
  resplits val = false ->
  re_assignment a b c ("." +:+ var +:+ "=" +:+ q +:+ val +:+ q)
  = Some (mk_groupdict a b c var val).
Proof.
  intros Hne Hvar Hval Hre.
  rewrite re_assignment_unfold, lit_app.
  apply plus_commit; [exact Hne | exact Hvar |].
  change ("=" +:+ q +:+ val +:+ q)
    with (String "=" (String dquote (val +:+ q))).
  simpl star.
  rewrite append_assoc.
  rewrite (star_tail_none a b c val _ Hre).
  unfold assignment_tail at 1 2. simpl lit.
  apply star_value. exact Hval.
Qed.

Lemma source_payload_match (id var val : string) :
  id <> EmptyString -> all isdecimal id = true ->
  var <> EmptyString -> all non_space var = true ->
  all not_linebreak val = true -> resplits val = false ->
  _re_response_match ("S[" +:+ id +:+ "]." +:+ var +:+ "=" +:+ q +:+ val +:+ q)
  = Some (mk_groupdict (Some id) None None var val).
Proof.
  intros Hid Hdig Hne Hvar Hval Hre.
  unfold _re_response_match, alt. rewrite lit_app.
  rewrite (plus_commit isdecimal _ id _
             (mk_groupdict (Some id) None None var val) Hid Hdig);
    [reflexivity|].
  change ("]." +:+ var +:+ "=" +:+ q +:+ val +:+ q)
    with (String "]" ("." +:+ var +:+ "=" +:+ q +:+ val +:+ q)).
  rewrite star_stop by reflexivity.
  change (String "]" ("." +:+ var +:+ "=" +:+ q +:+ val +:+ q))
    with ("]" +:+ "." +:+ var +:+ "=" +:+ q +:+ val +:+ q).
  rewrite lit_app. apply re_assignment_match; assumption.
Qed.

Lemma zone_payload_match (ctl z var val : string) (d : ascii) :
  ctl <> EmptyString -> all isdecimal ctl = true ->
  z <> EmptyString -> all isdecimal z = true ->
  not_linebreak d = true ->
  var <> EmptyString -> all non_space var = true ->
  all not_linebreak val = true -> resplits val = false ->
  _re_response_match
    ("C[" +:+ ctl +:+ "]" +:+ String d ("Z[" +:+ z +:+ "]." +:+ var +:+ "="
     +:+ q +:+ val +:+ q))
  = Some (mk_groupdict None (Some ctl) (Some z) var val).
Proof.
  intros Hctl Hcd Hz Hzd Hd Hne Hvar Hval Hre.
  unfold _re_response_match, alt.
  replace (lit "S[" _ _) with (@None groupdict) by reflexivity.
  rewrite lit_app.
  rewrite (plus_commit isdecimal _ ctl _
             (mk_groupdict None (Some ctl) (Some z) var val) Hctl Hcd);
    [reflexivity|].
  change ("]" +:+ String d ("Z[" +:+ z +:+ "]." +:+ var +:+ "=" +:+ q +:+ val +:+ q))
    with (String "]" (String d ("Z[" +:+ z +:+ "]." +:+ var +:+ "=" +:+ q +:+ val +:+ q))).
  rewrite star_stop by reflexivity.
  change (String "]" (String d ("Z[" +:+ z +:+ "]." +:+ var +:+ "=" +:+ q +:+ val +:+ q)))
    with ("]" +:+ String d ("Z[" +:+ z +:+ "]." +:+ var +:+ "=" +:+ q +:+ val +:+ q)).
  rewrite lit_app. unfold one. rewrite Hd. rewrite lit_app.
  rewrite (plus_commit isdecimal _ z _
             (mk_groupdict None (Some ctl) (Some z) var val) Hz Hzd);
    [reflexivity|].
  change ("]." +:+ var +:+ "=" +:+ q +:+ val +:+ q)
    with (String "]" ("." +:+ var +:+ "=" +:+ q +:+ val +:+ q)).
  rewrite star_stop by reflexivity.
  change (String "]" ("." +:+ var +:+ "=" +:+ q +:+ val +:+ q))
    with ("]" +:+ "." +:+ var +:+ "=" +:+ q +:+ val +:+ q).
  rewrite lit_app. apply re_assignment_match; assumption.
Qed.

(** ** Stripping *)

Lemma lstrip_pad (pad s : string) :
  all isspace pad = true -> lstrip (pad +:+ s) = lstrip s.
Proof.
  induction pad as [|c pad IH]; [reflexivity|].
  rewrite append_cons. simpl. intros [Hc Hp]%andb_true_iff.
  rewrite Hc. auto.
Qed.

Lemma rstrip_blank (s : string) : all isspace s = true -> rstrip s = EmptyString.
Proof.
  induction s as [|c s IH]; [reflexivity|].
  simpl. intros [Hc Hs]%andb_true_iff. rewrite (IH Hs), Hc. reflexivity.
Qed.

Lemma rstrip_pad (s pad : string) :
  all isspace pad = true -> rstrip (s +:+ pad) = rstrip s.
Proof.
  intros H. induction s as [|c s IH].
  - apply rstrip_blank, H.
  - rewrite append_cons. simpl. rewrite IH. reflexivity.
Qed.

Lemma rstrip_last (s : string) (c : ascii) :
  isspace c = false ->
  rstrip (s +:+ String c EmptyString) = s +:+ String c EmptyString.
Proof.
  intros H. induction s as [|x s IH].
  - simpl. rewrite H. reflexivity.
  - rewrite append_cons. simpl. rewrite IH.
    destruct s; reflexivity.
Qed.

(** a line is stripped down to its core when the core begins and ends
    with characters that are not whitespace *)
Lemma strip_core (pad pad' body : string) (c0 c1 : ascii) :
  all isspace pad = true -> all isspace pad' = true ->
  isspace c0 = false -> isspace c1 = false ->
  strip (pad +:+ String c0 (body +:+ String c1 EmptyString) +:+ pad')
  = String c0 (body +:+ String c1 EmptyString).
Proof.
  intros Hp Hp' H0 H1. unfold strip.
  rewrite lstrip_pad by exact Hp.
  rewrite append_cons. simpl lstrip. rewrite H0.
  rewrite <- append_cons, rstrip_pad by exact Hp'.
  rewrite <- append_cons. apply rstrip_last, H1.
Qed.

(** ** Line processing, case by case *)

Lemma process_error (res rest : string) (w : World) :
  strip res = String "E" rest ->
  _process_response res w
  = (Raised (CommandException (slice_from 1 rest)),
     error_logged (slice_from 1 rest) w).
Proof.
  intros H. unfold _process_response. rewrite H. reflexivity.
Qed.

Lemma process_nomatch (res rest : string) (ty : ascii) (w : World) :
  strip res = String ty rest ->
  ty <> "E"%char ->
  _re_response_match (slice_from 1 rest) = None ->
  _process_response res w = (Returned (ty, None), w).
Proof.
  intros H Hty Hm. unfold _process_response. rewrite H.
  unfold bind at 1. simpl first_char. unfold ret at 1.
  apply Ascii.eqb_neq in Hty. rewrite Hty.
  change (slice_from 2 (String ty rest)) with (slice_from 1 rest).
  rewrite Hm. reflexivity.
Qed.

Lemma process_match (res rest : string) (ty : ascii) (p : groupdict) (w : World) :
  strip res = String ty rest ->
  ty <> "E"%char ->
  _re_response_match (slice_from 1 rest) = Some p ->
  _process_response res w = (Returned (ty, Some (g_value p)), applied p w).
Proof.
  intros H Hty Hm. unfold _process_response. rewrite H.
  unfold bind at 1. simpl first_char. unfold ret at 1.
  apply Ascii.eqb_neq in Hty. rewrite Hty.
  change (slice_from 2 (String ty rest)) with (slice_from 1 rest).
  rewrite Hm. unfold applied.
  destruct (_re_response_match_inv _ _ Hm) as
    [_ [(src & r & -> & _ & _ & Hne & _)
       |(ctl & z & d & r & -> & -> & -> & _ & _ & Hne & _)]].
  - destruct src as [|c src]; [congruence|]. simpl truthy.
    unfold bind. rewrite store_source_eq. reflexivity.
  - destruct z as [|c z]; [congruence|]. simpl truthy.
    unfold bind. rewrite store_zone_eq. reflexivity.
Qed.

Lemma applied_addressed (p : groupdict) (w : World) :
  addressed_update p (self (applied p w)).
Proof.
  unfold addressed_update, applied.
  destruct (g_source p) as [src|].
  - rewrite cached_source_stored, decide_True by done. reflexivity.
  - rewrite cached_zone_stored, decide_True by done. reflexivity.
Qed.

Lemma applied_trace (p : groupdict) (w : World) :
  exists evs, trace (applied p w) = (trace w ++ evs)%list
              /\ forallb (fun e => negb (is_resolution e)) evs = true.
Proof.
  unfold applied. destruct (g_source p) as [src|]; simpl;
    eexists; (split; [reflexivity|]).
  - induction (_source_callbacks (self w)); simpl; auto.
  - induction (_zone_callbacks (self w)); simpl; auto.
Qed.

(** ** Reading a payload the way the grammar does *)

Lemma length_append (a b : string) :
  String.length (a +:+ b) = (String.length a + String.length b)%nat.
Proof.
  induction a as [|c a IH]; [reflexivity|].
  rewrite append_cons; simpl. rewrite IH; reflexivity.
Qed.

Lemma resplits_inv (val : string) :
  resplits val = true ->
  exists p v, val = p +:+ "=" +:+ q +:+ v /\ all non_space p = true.
Proof.
  induction val as [|c val IH]; [discriminate|].
  change (resplits (String c val))
    with (starts_assign (String c val) || non_space c && resplits val).
  intros [Hs | [Hc Hr]%andb_true_iff]%orb_true_iff.
  - destruct val as [|d val]; [discriminate|]. simpl in Hs.
    apply andb_true_iff in Hs as [->%Ascii.eqb_eq ->%Ascii.eqb_eq].
    exists EmptyString, val. split; reflexivity.
  - destruct (IH Hr) as (p & v & -> & Hp).
    exists (String c p), v. split; [reflexivity|].
    simpl. rewrite Hc, Hp. reflexivity.
Qed.

(** every text [var="val"] has a reading in which the value does not
    split again; it is [var], [val] itself when [val] does not split *)
Lemma greedy_reading (n : nat) :
  forall val var : string,
    (String.length val <= n)%nat ->
    var <> EmptyString -> all non_space var = true ->
    all not_linebreak val = true ->
    exists var' val',
      var' +:+ "=" +:+ q +:+ val' = var +:+ "=" +:+ q +:+ val
      /\ var' <> EmptyString /\ all non_space var' = true
      /\ all not_linebreak val' = true /\ resplits val' = false
      /\ (resplits val = false -> var' = var /\ val' = val).
Proof.
  induction n as [|n IH]; intros val var Hlen Hne Hvar Hval.
  - destruct val; [|simpl in Hlen; lia].
    exists var, EmptyString. repeat split; assumption.
  - destruct (resplits val) eqn:Hre.
    + destruct (resplits_inv val Hre) as (p & v & -> & Hp).
      rewrite !all_app in Hval.
      apply andb_true_iff in Hval as [_ [_ [_ Hv]%andb_true_iff]%andb_true_iff].
      destruct (IH v (var +:+ "=" +:+ q +:+ p)) as
        (var' & val' & Heq & Hne' & Hvar' & Hval' & Hre' & _).
      * rewrite !length_append in Hlen. simpl in Hlen. lia.
      * destruct var; [congruence | discriminate].
      * rewrite !all_app, Hvar, Hp. reflexivity.
      * exact Hv.
      * exists var', val'. rewrite Heq, !append_assoc.
        repeat split; try assumption; discriminate.
    + exists var, val. repeat split; assumption.
Qed.

(** * Lines that carry a source variable *)

(** A raw line [S S[id].var="val"] (after any leading whitespace and
    before its line ending; [id] a non-empty run of digits, [var] a
    non-empty run of characters that are not whitespace, [val] free of line
    feeds) is read by the grammar as a source update whose name and value
    re-read the same text; they are [var] and [val] themselves unless
    [val] holds a further equals-quote pair for the greedy name to run on
    to.  Processing stores that value under that name. *)
Lemma source_line_greedy_reading
    (pad pad' id var val : string) (d : ascii) (w : World) :
  all isspace pad = true -> all isspace pad' = true ->
  id <> EmptyString -> all isdecimal id = true ->
  var <> EmptyString -> all non_space var = true ->
  all not_linebreak val = true ->
  let payload := "S[" +:+ id +:+ "]." +:+ var +:+ "=" +:+ q +:+ val +:+ q in
  let res := pad +:+ String "S" (String d payload) +:+ pad' in
  exists name value : string,
    name +:+ "=" +:+ q +:+ value = var +:+ "=" +:+ q +:+ val
    /\ (resplits val = false -> name = var /\ value = val)
    /\ _re_response_match (slice_from 2 (strip res))
       = Some (mk_groupdict (Some id) None None name value)
    /\ _process_response res w
       = (Returned ("S"%char, Some value),
          mk_World
            (set_source_state
               (<[int id := <[lower name := value]>
                               (default ∅ (_source_state (self w) !! int id))]>
                  (_source_state (self w)))
               (self w))
            (trace w ++ map (fun cb => SourceCallback cb (int id) (lower name) value)
                            (_source_callbacks (self w)))
            (next_future w))
    /\ cached_source
         (self (snd (_process_response res w))) (int id) name = Some value.
Proof.
  intros Hp Hp' Hid Hdig Hne Hvar Hval payload res.
  destruct (greedy_reading (String.length val) val var (le_n _) Hne Hvar Hval)
    as (name & value & Heq & Hne' & Hvar' & Hval' & Hre' & Hsame).
  exists name, value.
  assert (Hstrip : strip res = String "S" (String d payload)).
  { subst res payload.
    replace (String d ("S[" +:+ id +:+ "]." +:+ var +:+ "=" +:+ q +:+ val +:+ q))
      with (String d ("S[" +:+ id +:+ "]." +:+ var +:+ "=" +:+ q +:+ val)
            +:+ String dquote EmptyString).
    - apply strip_core; try assumption; reflexivity.
    - rewrite append_cons, !append_assoc. reflexivity. }
  assert (Hm : _re_response_match payload
               = Some (mk_groupdict (Some id) None None name value)).
  { subst payload.
    replace (var +:+ "=" +:+ q +:+ val +:+ q)
      with (name +:+ "=" +:+ q +:+ value +:+ q).
    - apply source_payload_match; assumption.
    - transitivity ((name +:+ "=" +:+ q +:+ value) +:+ q).
      + rewrite !append_assoc. reflexivity.
      + rewrite Heq, !append_assoc. reflexivity. }
  assert (Hproc : _process_response res w
                  = (Returned ("S"%char, Some value),
                     source_stored (int id) name value w)).
  { rewrite (process_match res (String d payload) "S"
               (mk_groupdict (Some id) None None name value) w Hstrip);
      [reflexivity | discriminate | exact Hm]. }
  split; [exact Heq|]. split; [exact Hsame|]. split.
  - rewrite Hstrip. exact Hm.
  - split; [exact Hproc|].
    rewrite Hproc. simpl snd.
    rewrite cached_source_stored, decide_True by done. reflexivity.
Qed.

(** C1, as stated, at a line of source 3 that has the form with [a] for
    the name and, for the value, the four characters b, equals sign,
    double quote, c: the greedy name runs on to the second equals-quote
    pair, so the value [c] is stored under the four-character name a,
    equals sign, double quote, b, and the callback is called with those;
    nothing is stored under [a]. *)
Lemma source_line_value_with_equals_quote_is_resplit :
  let var := "a" in
  let val := "b=" +:+ q +:+ "c" in
  let res := "S S[3]." +:+ var +:+ "=" +:+ q +:+ val +:+ q in
  let w := snd (add_source_callback 4%nat (mk_World __init__ [] 0%nat)) in
  let w' := snd (_process_response res w) in
  fst (_process_response res w) = Returned ("S"%char, Some "c")
  /\ cached_source (self w') 3 var = None
  /\ cached_source (self w') 3 ("a=" +:+ q +:+ "b") = Some "c"
  /\ trace w' = [SourceCallback 4%nat 3 ("a=" +:+ q +:+ "b") "c"].
Proof. vm_compute. repeat split. Qed.

(** C1, amended.  A raw line [S S[id].var="val"] (after any leading
    whitespace and before its line ending; [id] a non-empty run of
    digits, [var] a non-empty run of characters that are not whitespace,
    [val] free of line feeds) in which [val] holds no equals sign
    followed by a double quote that can be reached from its start without
    crossing whitespace is read by the grammar as the source update
    [id], [var], [val].  Processing the line returns the type code [S]
    with [val], stores [val] under the lower-cased [var] in the table of
    source [int id], and calls every registered source callback once, in
    registration order, with the id, the lower-cased [var] and [val];
    nothing else happens to the session. *)
Theorem source_line_updates_cache_and_calls_back
    (pad pad' id var val : string) (d : ascii) (w : World) :
  all isspace pad = true -> all isspace pad' = true ->
  id <> EmptyString -> all isdecimal id = true ->
  var <> EmptyString -> all non_space var = true ->
  all not_linebreak val = true ->
  resplits val = false ->
  let payload := "S[" +:+ id +:+ "]." +:+ var +:+ "=" +:+ q +:+ val +:+ q in
  let res := pad +:+ String "S" (String d payload) +:+ pad' in
  _re_response_match (slice_from 2 (strip res))
  = Some (mk_groupdict (Some id) None None var val)
  /\ _process_response res w
     = (Returned ("S"%char, Some val),
        mk_World
          (set_source_state
             (<[int id := <[lower var := val]>
                             (default ∅ (_source_state (self w) !! int id))]>
                (_source_state (self w)))
             (self w))
          (trace w ++ map (fun cb => SourceCallback cb (int id) (lower var) val)
                          (_source_callbacks (self w)))
          (next_future w))
  /\ cached_source
       (self (snd (_process_response res w))) (int id) var = Some val.
Proof.
  intros Hp Hp' Hid Hdig Hne Hvar Hval Hre payload res.
  destruct (source_line_greedy_reading pad pad' id var val d w
              Hp Hp' Hid Hdig Hne Hvar Hval)
    as (name & value & _ & Hsame & Hm & Hproc & Hcached).
  destruct (Hsame Hre) as [-> ->].
  split; [exact Hm|]. split; [exact Hproc | exact Hcached].
Qed.

Lemma source_line_updates_cache_and_calls_back_witness :
  let w := snd (add_source_callback 7%nat
             (snd (add_source_callback 4%nat (mk_World __init__ [] 0%nat)))) in
  let res := "S S[3].name=" +:+ q +:+ "Kitchen" +:+ q
             +:+ String "013"%char (String "010"%char EmptyString) in
  _re_response_match (slice_from 2 (strip res))
  = Some (mk_groupdict (Some "3") None None "name" "Kitchen")
  /\ _process_response res w
     = (Returned ("S"%char, Some "Kitchen"),
        mk_World
          (set_source_state
             (<[int "3" := <[lower "name" := "Kitchen"]>
                              (default ∅ (_source_state (self w) !! int "3"))]>
                (_source_state (self w)))
             (self w))
          (trace w ++ map (fun cb => SourceCallback cb (int "3") (lower "name") "Kitchen")
                          (_source_callbacks (self w)))
          (next_future w))
  /\ cached_source
       (self (snd (_process_response res w))) (int "3") "name" = Some "Kitchen".
Proof.
  apply (source_line_updates_cache_and_calls_back
           EmptyString (String "013"%char (String "010"%char EmptyString))
           "3" "name" "Kitchen" " "%char);
    first [reflexivity | discriminate].
Defined.

(** * Lines and the pending command *)

(** C2, as stated, at a line of type [E] whose payload matches the source
    grammar: the line is logged (and fails the pending command, if any),
    and the cache of source 3 stays empty. *)
Lemma error_line_matching_grammar_leaves_cache :
  let payload := "S[3].name=" +:+ q +:+ "Kitchen" +:+ q in
  let res := "E " +:+ payload in
  let w := mk_World __init__ [] 0%nat in
  let idle' := mk_World __init__ [LogError payload] 0%nat in
  let pending' :=
    mk_World __init__
      [LogError payload; SetException 0%nat (CommandException payload)] 0%nat in
  _re_response_match (slice_from 2 (strip res))
  = Some (mk_groupdict (Some "3") None None "name" "Kitchen")
  /\ _ioloop_step (LineRead res) (Idle, w) = Some (Idle, idle')
  /\ cached_source (self idle') 3 "name" = None
  /\ _ioloop_step (LineRead res) (Pending 0%nat, w) = Some (Idle, pending')
  /\ cached_source (self pending') 3 "name" = None.
Proof. repeat split. Qed.

(** C2, amended.  A line whose type code is not [E] and whose payload
    matches one of the two address grammars updates the cache for the
    entity it addresses, whether the loop is idle or has a command
    pending.  While a command is pending, a line whose type code is
    neither [S] nor [E] resolves nothing: its cache update, if it has
    one, is applied (with the callbacks and no other event) and the loop
    stays on the same command; a line of type [S] applies its update too
    and then resolves the command with the value. *)
Theorem line_updates_cache_pending_or_idle
    (res rest : string) (ty : ascii) (w : World) :
  strip res = String ty rest ->
  ty <> "E"%char ->
  let m := _re_response_match (slice_from 1 rest) in
  let upd := match m with
             | Some p => applied p w
             | None => w
             end in
  (forall p, m = Some p -> addressed_update p (self upd))
  /\ _ioloop_step (LineRead res) (Idle, w) = Some (Idle, upd)
  /\ forall fut : future,
       (ty <> "S"%char ->
        _ioloop_step (LineRead res) (Pending fut, w) = Some (Pending fut, upd)
        /\ exists evs,
             trace upd = (trace w ++ evs)%list
             /\ forallb (fun e => negb (is_resolution e)) evs = true)
       /\ (ty = "S"%char ->
           _ioloop_step (LineRead res) (Pending fut, w)
           = Some (Idle,
                   emitted (SetResult fut (from_option PyStr PyNone
                                             (g_value <$> m))) upd)).
Proof.
  intros Hs Hty m upd.
  assert (Hproc : _process_response res w = (Returned (ty, g_value <$> m), upd)).
  { subst upd m. destruct (_re_response_match (slice_from 1 rest)) as [p|] eqn:Hm.
    - apply (process_match res rest ty p w Hs Hty Hm).
    - apply (process_nomatch res rest ty w Hs Hty Hm). }
  split; [|split].
  - intros p Hp. subst upd. rewrite Hp. apply applied_addressed.
  - unfold _ioloop_step, on_line_idle, try_except, bind.
    rewrite Hproc. reflexivity.
  - intros fut. split.
    + intros HS. split.
      * unfold _ioloop_step, on_line_pending, try_except, bind.
        rewrite Hproc. apply Ascii.eqb_neq in HS. rewrite HS. reflexivity.
      * subst upd. destruct m as [p|].
        -- apply applied_trace.
        -- exists []. rewrite app_nil_r. split; reflexivity.
    + intros ->.
      unfold _ioloop_step, on_line_pending, try_except, bind.
      rewrite Hproc. reflexivity.
Qed.

Lemma line_updates_cache_pending_or_idle_witness :
  let res := "N C[2].Z[5].status=" +:+ q +:+ "ON" +:+ q in
  let w := mk_World __init__ [] 0%nat in
  let upd := applied (mk_groupdict None (Some "2") (Some "5") "status" "ON") w in
  cached_zone (self upd) (mk_ZoneID 5 2) "status" = Some "ON"
  /\ _ioloop_step (LineRead res) (Pending 0%nat, w) = Some (Pending 0%nat, upd).
Proof.
  pose proof (line_updates_cache_pending_or_idle
                ("N C[2].Z[5].status=" +:+ q +:+ "ON" +:+ q)
                (" C[2].Z[5].status=" +:+ q +:+ "ON" +:+ q)
                "N"%char (mk_World __init__ [] 0%nat) eq_refl
                ltac:(discriminate)) as (Hupd & _ & Hpend).
  split.
  - exact (Hupd _ eq_refl).
  - exact (proj1 (proj1 (Hpend 0%nat) ltac:(discriminate))).
Defined.

(** * Error lines *)

(** C3.  A line of type [E] raises [CommandException] with the whole
    payload (the stripped line from its third character on) as message;
    the error is logged and the session object, its cache included, is
    left as it was, whether or not the payload matches a grammar.  With a
    command pending, the command's future is failed with that exception
    and the loop is idle again, so that the next queued command is taken
    and written; with no command pending the exception is swallowed and
    the loop stays idle. *)
Theorem error_line_fails_pending_command (res rest : string) (w : World) :
  strip res = String "E" rest ->
  let payload := slice_from 1 rest in
  let logged := mk_World (self w) (trace w ++ [LogError payload]) (next_future w) in
  _process_response res w = (Raised (CommandException payload), logged)
  /\ _ioloop_step (LineRead res) (Idle, w) = Some (Idle, logged)
  /\ forall fut : future,
       let failed :=
         mk_World (self w)
                  (trace w ++ [LogError payload;
                               SetException fut (CommandException payload)])
                  (next_future w) in
       _ioloop_step (LineRead res) (Pending fut, w) = Some (Idle, failed)
       /\ forall cmd fut' queue,
            _cmd_queue (self w) = (cmd, fut') :: queue ->
            _ioloop [LineRead res; CommandTaken] (Pending fut, w)
            = Some (Pending fut',
                    mk_World (set_cmd_queue queue (self w))
                             (trace failed ++ [WireWrite (cmd +:+ carriage_return)])
                             (next_future w)).
Proof.
  intros Hs payload logged.
  pose proof (process_error res rest w Hs) as Hproc.
  split; [exact Hproc|]. split.
  - unfold _ioloop_step, on_line_idle, try_except, bind.
    rewrite Hproc. reflexivity.
  - intros fut failed.
    assert (Hstep : _ioloop_step (LineRead res) (Pending fut, w)
                    = Some (Idle, failed)).
    { unfold _ioloop_step, on_line_pending, try_except, bind.
      rewrite Hproc. unfold emit, error_logged, ret; simpl.
      subst failed. rewrite <- app_assoc. reflexivity. }
    split; [exact Hstep|].
    intros cmd fut' queue Hq.
    unfold _ioloop. rewrite Hstep.
    unfold _ioloop_step. subst failed; simpl self. rewrite Hq.
    reflexivity.
Qed.

Lemma error_line_fails_pending_command_witness :
  let w := mk_World (set_cmd_queue [("GET S[1].name", 1%nat)] __init__) [] 2%nat in
  _ioloop [LineRead "E bad syntax"; CommandTaken] (Pending 0%nat, w)
  = Some (Pending 1%nat,
          mk_World __init__
            [LogError "bad syntax";
             SetException 0%nat (CommandException "bad syntax");
             WireWrite ("GET S[1].name" +:+ carriage_return)] 2%nat).
Proof.
  exact (proj2 (proj2 (proj2 (error_line_fails_pending_command
           "E bad syntax" " bad syntax"
           (mk_World (set_cmd_queue [("GET S[1].name", 1%nat)] __init__) [] 2%nat)
           eq_refl)) 0%nat)
         "GET S[1].name" 1%nat [] eq_refl).
Defined.

(** * Further properties of the code *)

(** ** Decimal text *)

Lemma string_of_uint_decimal (d : Decimal.uint) :
  all isdecimal (NilEmpty.string_of_uint d) = true.
Proof. induction d; simpl; try reflexivity; exact IHd. Qed.

Lemma int_acc_of_uint_acc (d : Decimal.uint) (acc : positive) :
  int_acc (Zpos acc) (NilEmpty.string_of_uint d) = Zpos (Pos.of_uint_acc d acc).
Proof.
  revert acc; induction d; intros acc; simpl; try reflexivity;
    rewrite <- IHd; f_equal; unfold digit_value; simpl; lia.
Qed.

Lemma int_acc_of_uint (d : Decimal.uint) :
  int_acc 0 (NilEmpty.string_of_uint d) = Z.of_N (Pos.of_uint d).
Proof.
  induction d; simpl; try reflexivity; try exact IHd;
    apply (int_acc_of_uint_acc d).
Qed.

(** the [%d] text of a number that is not negative is a non-empty run of
    digits, and [int] reads the number back *)
Lemma fmt_d_nonneg (n : Z) :
  0 <= n ->
  fmt_d n <> EmptyString /\ all isdecimal (fmt_d n) = true /\ int (fmt_d n) = n.
Proof.
  intros Hn. destruct n as [|p|p]; [repeat split; discriminate | | lia].
  unfold fmt_d, int. simpl Z.to_int. unfold NilZero.string_of_int.
  pose proof (DecimalPos.Unsigned.of_to p) as Hp.
  unfold NilZero.string_of_uint.
  destruct (Pos.to_uint p) eqn:Hd; try discriminate Hp;
    (split; [discriminate|]); (split; [apply string_of_uint_decimal|]);
    rewrite int_acc_of_uint, Hp; reflexivity.
Qed.

(** the [%d] text of a negative number begins with a minus sign *)
Lemma fmt_d_negative (n : Z) :
  n < 0 -> exists s, fmt_d n = String "-" s.
Proof.
  intros Hn. destruct n as [|p|p]; [lia | lia |].
  unfold fmt_d. simpl. eexists; reflexivity.
Qed.

(** ** Lines that carry a zone variable *)

Lemma append_empty_l (a : string) : EmptyString +:+ a = a.
Proof. reflexivity. Qed.

(** both sides of an equation between texts, flattened *)
Ltac flatten_text :=
  repeat first [ rewrite append_cons | rewrite append_assoc
               | rewrite append_empty_l ];
  try reflexivity.

(** A raw line [T C[c]xZ[z].var="val"] whose type code [T] is not [E]
    ([c] and [z] non-empty runs of digits, [x] any one character but a
    line feed, since the dot of the pattern is not escaped; [var] and
    [val] as for a source line) is read as a zone update whose name and
    value re-read the same text; they are [var] and [val] themselves
    unless [val] holds a further equals-quote pair. *)
Lemma zone_line_greedy_reading
    (pad pad' ctl z var val : string) (ty d x : ascii) (w : World) :
  all isspace pad = true -> all isspace pad' = true ->
  isspace ty = false -> ty <> "E"%char ->
  ctl <> EmptyString -> all isdecimal ctl = true ->
  z <> EmptyString -> all isdecimal z = true ->
  not_linebreak x = true ->
  var <> EmptyString -> all non_space var = true ->
  all not_linebreak val = true ->
  let payload := "C[" +:+ ctl +:+ "]" +:+ String x ("Z[" +:+ z +:+ "]." +:+ var
                 +:+ "=" +:+ q +:+ val +:+ q) in
  let res := pad +:+ String ty (String d payload) +:+ pad' in
  let zone_id := mk_ZoneID (int z) (int ctl) in
  exists name value : string,
    name +:+ "=" +:+ q +:+ value = var +:+ "=" +:+ q +:+ val
    /\ (resplits val = false -> name = var /\ value = val)
    /\ _process_response res w
       = (Returned (ty, Some value),
          mk_World
            (set_zone_state
               (<[zone_id := <[lower name := value]>
                               (default ∅ (_zone_state (self w) !! zone_id))]>
                  (_zone_state (self w)))
               (self w))
            (trace w ++ map (fun cb => ZoneCallback cb zone_id (lower name) value)
                            (_zone_callbacks (self w)))
            (next_future w)).
Proof.
  intros Hp Hp' Hty HtyE Hctl Hcd Hz Hzd Hx Hne Hvar Hval payload res zone_id.
  destruct (greedy_reading (String.length val) val var (le_n _) Hne Hvar Hval)
    as (name & value & Heq & Hne' & Hvar' & Hval' & Hre' & Hsame).
  exists name, value.
  assert (Hstrip : strip res = String ty (String d payload)).
  { subst res payload.
    replace (String d ("C[" +:+ ctl +:+ "]" +:+ String x ("Z[" +:+ z +:+ "]."
               +:+ var +:+ "=" +:+ q +:+ val +:+ q)))
      with (String d ("C[" +:+ ctl +:+ "]" +:+ String x ("Z[" +:+ z +:+ "]."
               +:+ var +:+ "=" +:+ q +:+ val))
            +:+ String dquote EmptyString).
    - apply strip_core; try assumption; reflexivity.
    - flatten_text. }
  assert (Hm : _re_response_match payload
               = Some (mk_groupdict None (Some ctl) (Some z) name value)).
  { subst payload.
    replace (var +:+ "=" +:+ q +:+ val +:+ q)
      with (name +:+ "=" +:+ q +:+ value +:+ q).
    - apply zone_payload_match; assumption.
    - transitivity ((name +:+ "=" +:+ q +:+ value) +:+ q).
      + rewrite !append_assoc. reflexivity.
      + rewrite Heq, !append_assoc. reflexivity. }
  split; [exact Heq|]. split; [exact Hsame|].
  rewrite (process_match res (String d payload) ty
             (mk_groupdict None (Some ctl) (Some z) name value) w Hstrip HtyE Hm).
  reflexivity.
Qed.

(** X1.  A raw line [T C[c]xZ[z].var="val"] whose type code [T] is not
    [E] ([c] and [z] non-empty runs of digits; [x] any one character but
    a line feed, since the dot of the pattern is not escaped; [var] a
    non-empty run of characters that are not whitespace; [val] free of
    line feeds and holding no equals sign followed by a double quote
    that can be reached from its start without crossing whitespace) is
    processed as a zone update: the type code is returned with [val],
    [val] is stored under the lower-cased [var] in the table of
    [ZoneID(zone=int z, controller=int c)], and every registered zone
    callback is called once, in registration order, with that zone, the
    lower-cased [var] and [val]; the source cache and the source
    callbacks are not involved. *)
Theorem zone_line_updates_cache_and_calls_back
    (pad pad' ctl z var val : string) (ty d x : ascii) (w : World) :
  all isspace pad = true -> all isspace pad' = true ->
  isspace ty = false -> ty <> "E"%char ->
  ctl <> EmptyString -> all isdecimal ctl = true ->
  z <> EmptyString -> all isdecimal z = true ->
  not_linebreak x = true ->
  var <> EmptyString -> all non_space var = true ->
  all not_linebreak val = true ->
  resplits val = false ->
  let payload := "C[" +:+ ctl +:+ "]" +:+ String x ("Z[" +:+ z +:+ "]." +:+ var
                 +:+ "=" +:+ q +:+ val +:+ q) in
  let res := pad +:+ String ty (String d payload) +:+ pad' in
  let zone_id := mk_ZoneID (int z) (int ctl) in
  _process_response res w
  = (Returned (ty, Some val),
     mk_World
       (set_zone_state
          (<[zone_id := <[lower var := val]>
                          (default ∅ (_zone_state (self w) !! zone_id))]>
             (_zone_state (self w)))
          (self w))
       (trace w ++ map (fun cb => ZoneCallback cb zone_id (lower var) val)
                       (_zone_callbacks (self w)))
       (next_future w)).
Proof.
  intros Hp Hp' Hty HtyE Hctl Hcd Hz Hzd Hx Hne Hvar Hval Hre payload res zone_id.
  destruct (zone_line_greedy_reading pad pad' ctl z var val ty d x w
              Hp Hp' Hty HtyE Hctl Hcd Hz Hzd Hx Hne Hvar Hval)
    as (name & value & _ & Hsame & Hproc).
  destruct (Hsame Hre) as [-> ->]. exact Hproc.
Qed.

Lemma zone_line_updates_cache_and_calls_back_witness :
  let w := snd (add_zone_callback 9%nat (mk_World __init__ [] 0%nat)) in
  let res := "N C[2]xZ[5].status=" +:+ q +:+ "ON" +:+ q in
  _process_response res w
  = (Returned ("N"%char, Some "ON"),
     mk_World
       (set_zone_state
          (<[mk_ZoneID 5 2 := <[lower "status" := "ON"]>
               (default ∅ (_zone_state (self w) !! mk_ZoneID 5 2))]>
             (_zone_state (self w)))
          (self w))
       (trace w ++ map (fun cb => ZoneCallback cb (mk_ZoneID 5 2) (lower "status") "ON")
                       (_zone_callbacks (self w)))
       (next_future w)).
Proof.
  apply (zone_line_updates_cache_and_calls_back
           EmptyString EmptyString "2" "5" "status" "ON"
           "N"%char " "%char "x"%char);
    first [reflexivity | discriminate].
Defined.

(** ** Addresses written and read back *)

(** X2.  The command text of [set_zone_variable] is [SET ] followed by a
    payload that the response grammar reads back as the same zone, name
    and value, when the indices of the zone are not negative, the name is
    a non-empty run of characters that are not whitespace, and the value
    holds no line feed and no equals-quote pair reachable without
    whitespace. *)
Theorem set_zone_variable_text_reads_back
    (zone_id : ZoneID) (variable value : string) (w : World) :
  0 <= zone zone_id -> 0 <= controller zone_id ->
  variable <> EmptyString -> all non_space variable = true ->
  all not_linebreak value = true -> resplits value = false ->
  exists payload p,
    _cmd_queue (self (session_of (set_zone_variable zone_id variable value w)))
    = (_cmd_queue (self w) ++ [("SET " +:+ payload, next_future w)])%list
    /\ _re_response_match payload = Some p
    /\ g_source p = None
    /\ mk_ZoneID (int (group_text (g_zone p))) (int (group_text (g_controller p)))
       = zone_id
    /\ g_variable p = variable
    /\ g_value p = value.
Proof.
  intros Hz Hc Hne Hvar Hval Hre.
  destruct (fmt_d_nonneg _ Hz) as (Hz1 & Hz2 & Hz3).
  destruct (fmt_d_nonneg _ Hc) as (Hc1 & Hc2 & Hc3).
  exists (ZoneIDOps.device_str zone_id +:+ "." +:+ variable +:+ "=" +:+ q
          +:+ value +:+ q),
         (mk_groupdict None (Some (fmt_d (controller zone_id)))
                       (Some (fmt_d (zone zone_id))) variable value).
  split; [reflexivity|]. split.
  - unfold ZoneIDOps.device_str. rewrite !append_assoc.
    apply (zone_payload_match (fmt_d (controller zone_id)) (fmt_d (zone zone_id))
             variable value "."%char); try assumption; reflexivity.
  - simpl. rewrite Hz3, Hc3. destruct zone_id; repeat split.
Qed.

Lemma set_zone_variable_text_reads_back_witness :
  exists payload p,
    _cmd_queue (self (session_of (set_zone_variable (mk_ZoneID 5 2) "volume" "10"
                                    (mk_World __init__ [] 0%nat))))
    = (_cmd_queue __init__ ++ [("SET " +:+ payload, 0%nat)])%list
    /\ _re_response_match payload = Some p
    /\ g_source p = None
    /\ mk_ZoneID (int (group_text (g_zone p))) (int (group_text (g_controller p)))
       = mk_ZoneID 5 2
    /\ g_variable p = "volume"
    /\ g_value p = "10".
Proof.
  apply (set_zone_variable_text_reads_back (mk_ZoneID 5 2) "volume" "10"
           (mk_World __init__ [] 0%nat));
    first [reflexivity | discriminate].
Defined.

(** ** What processing a line can do *)

(** every line falls under one of four cases *)
Lemma process_cases (res : string) (w : World) :
  match strip res with
  | EmptyString => _process_response res w = (Raised IndexError, w)
  | String ty rest =>
      if Ascii.eqb ty "E" then
        _process_response res w
        = (Raised (CommandException (slice_from 1 rest)),
           error_logged (slice_from 1 rest) w)
      else
        match _re_response_match (slice_from 1 rest) with
        | Some p =>
            _process_response res w
            = (Returned (ty, Some (g_value p)), applied p w)
        | None => _process_response res w = (Returned (ty, None), w)
        end
  end.
Proof.
  destruct (strip res) as [|ty rest] eqn:Hs.
  - unfold _process_response. rewrite Hs. reflexivity.
  - destruct (Ascii.eqb_spec ty "E") as [->|Hty].
    + apply process_error, Hs.
    + destruct (_re_response_match (slice_from 1 rest)) as [p|] eqn:Hm.
      * apply (process_match res rest ty p w Hs Hty Hm).
      * apply (process_nomatch res rest ty w Hs Hty Hm).
Qed.

Lemma quiet_nil : quiet [].
Proof. repeat split. Qed.

Lemma quiet_zone_callbacks (zone_id : ZoneID) (name value : string)
      (cbs : list callback) :
  quiet (map (fun cb => ZoneCallback cb zone_id name value) cbs).
Proof.
  induction cbs as [|cb cbs (H1 & H2 & H3)]; [apply quiet_nil|].
  repeat split; simpl; assumption.
Qed.

Lemma quiet_source_callbacks (source_id : Z) (name value : string)
      (cbs : list callback) :
  quiet (map (fun cb => SourceCallback cb source_id name value) cbs).
Proof.
  induction cbs as [|cb cbs (H1 & H2 & H3)]; [apply quiet_nil|].
  repeat split; simpl; assumption.
Qed.

Lemma applied_frame (p : groupdict) (w : World) :
  same_frame w (applied p w)
  /\ exists evs, trace (applied p w) = (trace w ++ evs)%list /\ quiet evs.
Proof.
  unfold applied. destruct (g_source p); (split; [repeat split|]);
    eexists; (split; [reflexivity|]).
  - apply quiet_source_callbacks.
  - apply quiet_zone_callbacks.
Qed.

Lemma process_frame (res : string) (w : World) :
  let w' := snd (_process_response res w) in
  same_frame w w'
  /\ exists evs, trace w' = (trace w ++ evs)%list /\ quiet evs.
Proof.
  pose proof (process_cases res w) as H.
  destruct (strip res) as [|ty rest].
  - rewrite H. simpl. split; [repeat split|].
    exists []. rewrite app_nil_r. split; [reflexivity | apply quiet_nil].
  - destruct (Ascii.eqb ty "E").
    + rewrite H. simpl. split; [repeat split|].
      eexists. split; [reflexivity|]. repeat split.
    + destruct (_re_response_match (slice_from 1 rest)) as [p|]; rewrite H; simpl.
      * apply applied_frame.
      * split; [repeat split|].
        exists []. rewrite app_nil_r. split; [reflexivity | apply quiet_nil].
Qed.

(** X3.  Processing a line, whatever the line and whatever the session,
    changes at most the two cache tables and the trace: the command queue,
    the watched sets, the callback lists and the supply of futures are as
    before, and the trace grows only by callback calls or one error log,
    never by a write to the socket or by the resolution of a future. *)
Theorem process_response_footprint (res : string) (w : World) :
  let w' := snd (_process_response res w) in
  _cmd_queue (self w') = _cmd_queue (self w)
  /\ _watched_zones (self w') = _watched_zones (self w)
  /\ _watched_sources (self w') = _watched_sources (self w)
  /\ _zone_callbacks (self w') = _zone_callbacks (self w)
  /\ _source_callbacks (self w') = _source_callbacks (self w)
  /\ next_future w' = next_future w
  /\ exists evs,
       trace w' = (trace w ++ evs)%list
       /\ written evs = [] /\ resolved evs = [].
Proof.
  intros w'. destruct (process_frame res w) as ((H1 & H2 & H3 & H4 & H5 & H6) & evs & Ht & Hq1 & Hq2 & _).
  repeat split; try assumption.
  exists evs. repeat split; assumption.
Qed.

(** ** The loop: one command at a time, in queue order *)

Local Open Scope list_scope.

Lemma written_app (a b : list event) : written (a ++ b) = written a ++ written b.
Proof. apply omap_app. Qed.

Lemma resolved_app (a b : list event) : resolved (a ++ b) = resolved a ++ resolved b.
Proof. apply omap_app. Qed.

Lemma one_in_flight_app (a b : list event) (busy : bool) :
  one_in_flight busy (a ++ b)
  = match one_in_flight busy a with
    | Some busy' => one_in_flight busy' b
    | None => None
    end.
Proof.
  revert busy; induction a as [|e a IH]; intros busy; [reflexivity|].
  destruct e; simpl; try apply IH; destruct busy; try reflexivity; apply IH.
Qed.

Lemma on_line_idle_cases (response : string) (w : World) :
  let wp := snd (_process_response response w) in
  on_line_idle response w = (Returned tt, wp)
  \/ exists e, on_line_idle response w = (Raised e, wp).
Proof.
  unfold on_line_idle, try_except, bind.
  destruct (_process_response response w) as [[r|e] wp]; simpl.
  - left; reflexivity.
  - destruct e; first [left; reflexivity | right; eexists; reflexivity].
Qed.

Lemma on_line_pending_cases (fut : future) (response : string) (w : World) :
  let wp := snd (_process_response response w) in
  on_line_pending fut response w = (Returned false, wp)
  \/ (exists v, on_line_pending fut response w
                = (Returned true, emitted (SetResult fut v) wp))
  \/ (exists x, on_line_pending fut response w
                = (Returned true, emitted (SetException fut x) wp))
  \/ exists e, on_line_pending fut response w = (Raised e, wp).
Proof.
  unfold on_line_pending, try_except, bind.
  destruct (_process_response response w) as [[[ty v]|e] wp]; simpl.
  - destruct (Ascii.eqb ty "S").
    + right; left. eexists; reflexivity.
    + left; reflexivity.
  - destruct e;
      first [ right; right; left; eexists; reflexivity
            | right; right; right; eexists; reflexivity ].
Qed.

Lemma accounts_quiet (mode : loop_mode) (w wp : World) (evs : list event) :
  same_frame w wp ->
  trace wp = trace w ++ evs -> quiet evs ->
  accounts mode w wp [] evs (in_flight mode).
Proof.
  intros (Hq & _ & _ & _ & _ & Hn) Ht (Hw & Hr & Ho).
  unfold accounts. rewrite Hq, Hw, Hr, Ho, app_nil_r.
  repeat split; assumption.
Qed.

Lemma accounts_resolution (fut : future) (w wp : World) (evs : list event)
      (ev : event) :
  same_frame w wp ->
  trace wp = trace w ++ evs -> quiet evs ->
  resolved [ev] = [fut] -> written [ev] = [] ->
  accounts (Pending fut) w (emitted ev wp) [] (evs ++ [ev]) [].
Proof.
  intros (Hq & _ & _ & _ & _ & Hn) Ht (Hw & Hr & Ho) Hres Hwr.
  unfold accounts, emitted; simpl self; simpl trace; simpl next_future.
  rewrite Hq, Ht, written_app, resolved_app, one_in_flight_app, Hw, Hr, Ho,
    Hres, Hwr, <- app_assoc.
  repeat split; try assumption.
  destruct ev; try discriminate Hres; reflexivity.
Qed.

Lemma step_accounts (ev : loop_event) (mode mode' : loop_mode) (w w' : World) :
  _ioloop_step ev (mode, w) = Some (mode', w') ->
  exists taken new, accounts mode w w' taken new (outstanding mode mode').
Proof.
  destruct (process_frame match ev with LineRead r => r | _ => EmptyString end w)
    as (Hf & evs & Ht & Hq).
  unfold _ioloop_step. destruct mode as [|fut|x], ev as [r|]; try discriminate.
  - destruct (on_line_idle_cases r w) as [H|[e H]]; rewrite H;
      intros [= <- <-]; exists [], evs; apply (accounts_quiet Idle); assumption.
  - destruct (_cmd_queue (self w)) as [|[cmd f] rest] eqn:Hqueue; [discriminate|].
    intros [= <- <-]. exists [(cmd, f)], [WireWrite (cmd +:+ carriage_return)].
    unfold accounts; simpl. rewrite Hqueue. repeat split.
  - destruct (on_line_pending_cases fut r w) as [H|[[v H]|[[x H]|[e H]]]];
      rewrite H; intros [= <- <-].
    + exists [], evs. apply (accounts_quiet (Pending fut)); assumption.
    + exists [], (evs ++ [SetResult fut v]).
      apply accounts_resolution; try assumption; reflexivity.
    + exists [], (evs ++ [SetException fut x]).
      apply accounts_resolution; try assumption; reflexivity.
    + exists [], evs. apply (accounts_quiet (Pending fut)); assumption.
Qed.

Lemma accounts_refl (mode : loop_mode) (w : World) :
  accounts mode w w [] [] (in_flight mode).
Proof.
  unfold accounts; simpl. rewrite !app_nil_r. repeat split.
Qed.

Lemma accounts_trans (mode mode1 : loop_mode) (w w1 w' : World)
      (t1 t2 : list (string * future)) (n1 n2 : list event) (pend : list future) :
  accounts mode w w1 t1 n1 (in_flight mode1) ->
  accounts mode1 w1 w' t2 n2 pend ->
  accounts mode w w' (t1 ++ t2) (n1 ++ n2) pend.
Proof.
  intros (Hq1 & Ht1 & Hn1 & Hw1 & Hr1 & Ho1) (Hq2 & Ht2 & Hn2 & Hw2 & Hr2 & Ho2).
  unfold accounts.
  rewrite Hq1, Hq2, Ht2, Ht1, Hn2, Hn1, written_app, resolved_app, Hw1, Hw2,
    !map_app, one_in_flight_app, Ho1, Ho2, !app_assoc, Hr1.
  rewrite <- !app_assoc, Hr2. repeat split.
Qed.

Lemma run_accounts (evs : list loop_event) :
  forall (mode mode' : loop_mode) (w w' : World),
    _ioloop evs (mode, w) = Some (mode', w') ->
    exists taken new pend,
      accounts mode w w' taken new pend
      /\ (length pend <= 1)%nat
      /\ match mode' with
         | Exited _ => True
         | _ => pend = in_flight mode'
         end.
Proof.
  induction evs as [|ev evs IH]; intros mode mode' w w'; cbn [_ioloop].
  - intros [= <- <-]. exists [], [], (in_flight mode).
    split; [apply accounts_refl|]. split; destruct mode; simpl; auto.
  - destruct (_ioloop_step ev (mode, w)) as [[mode1 w1]|] eqn:Hstep;
      [|discriminate].
    destruct (step_accounts _ _ _ _ _ Hstep) as (t1 & n1 & Hacc1).
    intros Hrun. destruct mode1 as [|fut1|x].
    + destruct (IH _ _ _ _ Hrun) as (t2 & n2 & pend & Hacc2 & Hlen & Hend).
      exists (t1 ++ t2), (n1 ++ n2), pend.
      split; [exact (accounts_trans _ Idle _ _ _ _ _ _ _ _ Hacc1 Hacc2)|].
      split; assumption.
    + destruct (IH _ _ _ _ Hrun) as (t2 & n2 & pend & Hacc2 & Hlen & Hend).
      exists (t1 ++ t2), (n1 ++ n2), pend.
      split; [exact (accounts_trans _ (Pending fut1) _ _ _ _ _ _ _ _ Hacc1 Hacc2)|].
      split; assumption.
    + destruct evs as [|ev2 evs]; [|discriminate Hrun].
      injection Hrun as <- <-.
      exists t1, n1, (in_flight mode). split; [exact Hacc1|].
      split; [destruct mode; simpl; lia | exact I].
Qed.

(** X4.  However the loop is driven, it takes commands off the front of
    the queue and writes them in that order, each followed by a carriage
    return, and it resolves futures in that same order: the futures
    resolved, followed by the ones still outstanding, are the future
    already in flight followed by those of the commands taken.  At most
    one future is outstanding; none when the loop is idle, the pending
    one when it is pending.  The loop hands out no future itself. *)
Theorem ioloop_writes_and_resolves_in_queue_order
    (evs : list loop_event) (mode mode' : loop_mode) (w w' : World) :
  _ioloop evs (mode, w) = Some (mode', w') ->
  exists taken new pend,
    _cmd_queue (self w) = taken ++ _cmd_queue (self w')
    /\ trace w' = trace w ++ new
    /\ written new = map (fun c => fst c +:+ carriage_return) taken
    /\ in_flight mode ++ map snd taken = resolved new ++ pend
    /\ (length pend <= 1)%nat
    /\ (mode' = Idle -> pend = [])
    /\ (forall fut, mode' = Pending fut -> pend = [fut])
    /\ next_future w' = next_future w.
Proof.
  intros Hrun.
  destruct (run_accounts _ _ _ _ _ Hrun)
    as (taken & new & pend & (Hq & Ht & Hn & Hw & Hr & _) & Hlen & Hend).
  exists taken, new, pend. repeat split; try assumption.
  - intros ->. exact Hend.
  - intros fut ->. exact Hend.
Qed.

Lemma ioloop_writes_and_resolves_in_queue_order_witness :
  let w := mk_World (set_cmd_queue [("GET S[1].name", 0%nat); ("GET S[2].name", 1%nat)]
                                   __init__) [] 2%nat in
  exists mode' w' taken new pend,
    _ioloop [CommandTaken; LineRead "S"; CommandTaken] (Idle, w) = Some (mode', w')
    /\ _cmd_queue (self w) = taken ++ _cmd_queue (self w')
    /\ trace w' = trace w ++ new
    /\ written new = map (fun c => fst c +:+ carriage_return) taken
    /\ in_flight Idle ++ map snd taken = resolved new ++ pend.
Proof.
  intros w.
  destruct (ioloop_writes_and_resolves_in_queue_order
              [CommandTaken; LineRead "S"; CommandTaken] Idle (Pending 1%nat) w
              (mk_World __init__
                 [WireWrite ("GET S[1].name" +:+ carriage_return);
                  SetResult 0%nat PyNone;
                  WireWrite ("GET S[2].name" +:+ carriage_return)] 2%nat)
              eq_refl)
    as (taken & new & pend & H1 & H2 & H3 & H4 & _).
  eexists (Pending 1%nat), _, taken, new, pend.
  split; [reflexivity|]. repeat split; assumption.
Defined.

(** X5.  Along the trace of any run of the loop, writes to the socket and
    resolutions of futures alternate, beginning with a write when the
    run starts idle and with a resolution when it starts pending: no
    command is written while another is outstanding, and no future is
    resolved unless a command is outstanding.  A run that ends idle has
    none outstanding, a run that ends pending has one. *)
Theorem ioloop_one_command_in_flight
    (evs : list loop_event) (mode mode' : loop_mode) (w w' : World) :
  _ioloop evs (mode, w) = Some (mode', w') ->
  exists new b,
    trace w' = trace w ++ new
    /\ one_in_flight (busy mode) new = Some b
    /\ match mode' with
       | Exited _ => True
       | _ => b = busy mode'
       end.
Proof.
  intros Hrun.
  destruct (run_accounts _ _ _ _ _ Hrun)
    as (taken & new & pend & (_ & Ht & _ & _ & _ & Ho) & _ & Hend).
  exists new, (bool_decide (pend <> [])).
  split; [exact Ht|]. split.
  - rewrite <- Ho. f_equal. destruct mode; reflexivity.
  - destruct mode'; subst; first [reflexivity | exact I].
Qed.

Lemma ioloop_one_command_in_flight_witness :
  let w := mk_World (set_cmd_queue [("GET S[1].name", 0%nat); ("GET S[2].name", 1%nat)]
                                   __init__) [] 2%nat in
  exists mode' w' new b,
    _ioloop [CommandTaken; LineRead "N hello"; LineRead "S"; CommandTaken] (Idle, w)
    = Some (mode', w')
    /\ trace w' = trace w ++ new
    /\ one_in_flight (busy Idle) new = Some b.
Proof.
  intros w.
  destruct (ioloop_one_command_in_flight
              [CommandTaken; LineRead "N hello"; LineRead "S"; CommandTaken]
              Idle (Pending 1%nat) w
              (mk_World __init__
                 [WireWrite ("GET S[1].name" +:+ carriage_return);
                  SetResult 0%nat PyNone;
                  WireWrite ("GET S[2].name" +:+ carriage_return)] 2%nat)
              eq_refl)
    as (new & b & H1 & H2 & _).
  eexists (Pending 1%nat), _, new, b.
  split; [reflexivity|]. split; assumption.
Defined.

(** ** Commands sent and the loop *)

Lemma send_all_session (cmds : list string) :
  forall w : World,
    send_all cmds w
    = mk_World
        (set_cmd_queue
           (_cmd_queue (self w) ++ zip cmds (seq (next_future w) (length cmds)))
           (self w))
        (trace w) (next_future w + length cmds)%nat.
Proof.
  induction cmds as [|cmd cmds IH]; intros w.
  - simpl. rewrite app_nil_r, Nat.add_0_r.
    destruct w as [[] ? ?]; reflexivity.
  - cbn [send_all]. rewrite IH.
    unfold _send_cmd, session_of, set_self, enqueue, new_future; simpl.
    rewrite <- app_assoc, Nat.add_succ_r. reflexivity.
Qed.

(** X6.  Commands sent one after the other on a session whose queue is
    empty receive consecutive new futures, and however the loop is then
    driven from idle, what it writes is a front part of those commands in
    the order they were sent, each followed by a carriage return, and the
    futures it resolves (then the outstanding one, if a command is
    pending) are the futures of that front part in the order they were
    handed out. *)
Theorem commands_written_in_the_order_sent
    (cmds : list string) (evs : list loop_event) (mode' : loop_mode)
    (w w' : World) :
  _cmd_queue (self w) = [] ->
  _ioloop evs (Idle, send_all cmds w) = Some (mode', w') ->
  exists (n : nat) new pend,
    (n <= length cmds)%nat
    /\ trace w' = trace w ++ new
    /\ written new = map (fun c => c +:+ carriage_return) (take n cmds)
    /\ resolved new ++ pend = seq (next_future w) n
    /\ (mode' = Idle -> pend = [])
    /\ (forall fut, mode' = Pending fut -> pend = [fut]).
Proof.
  intros Hq Hrun.
  destruct (run_accounts _ _ _ _ _ Hrun)
    as (taken & new & pend & (Hq' & Ht & _ & Hw & Hr & _) & _ & Hend).
  rewrite send_all_session in Hq', Ht. simpl in Hq', Ht. rewrite Hq in Hq'.
  simpl in Hq', Hr.
  assert (Hlen : length (seq (next_future w) (length cmds)) = length cmds)
    by apply length_seq.
  assert (Hcmds : cmds = map fst taken ++ map fst (_cmd_queue (self w'))).
  { rewrite <- map_app, <- Hq'. symmetry. apply fst_zip. rewrite length_seq. lia. }
  assert (Hfuts : seq (next_future w) (length cmds)
                  = map snd taken ++ map snd (_cmd_queue (self w'))).
  { rewrite <- map_app, <- Hq'. symmetry. apply snd_zip. rewrite length_seq. lia. }
  assert (Htk : (length taken <= length cmds)%nat).
  { rewrite Hcmds. rewrite length_app, !length_map. lia. }
  assert (Hfst : map fst taken = take (length taken) cmds).
  { rewrite Hcmds. rewrite <- (length_map fst taken).
    symmetry. apply take_app_length. }
  assert (Hsnd : map snd taken = seq (next_future w) (length taken)).
  { transitivity (take (length taken) (seq (next_future w) (length cmds))).
    - rewrite Hfuts. rewrite <- (length_map snd taken).
      symmetry. apply take_app_length.
    - rewrite take_seq. f_equal. lia. }
  exists (length taken), new, pend.
  split; [exact Htk|].
  split; [exact Ht|]. split.
  { rewrite Hw, <- Hfst, map_map. reflexivity. }
  split; [rewrite <- Hr, Hsnd; reflexivity|].
  split.
  - intros ->. exact Hend.
  - intros fut ->. exact Hend.
Qed.

Lemma commands_written_in_the_order_sent_witness :
  let w := mk_World __init__ [] 0%nat in
  exists mode' w' (n : nat) new pend,
    _ioloop [CommandTaken; LineRead "S"; CommandTaken]
            (Idle, send_all ["GET S[1].name"; "GET S[2].name"; "GET S[3].name"] w)
    = Some (mode', w')
    /\ (n <= 3)%nat
    /\ trace w' = trace w ++ new
    /\ written new
       = map (fun c => c +:+ carriage_return)
             (take n ["GET S[1].name"; "GET S[2].name"; "GET S[3].name"])
    /\ resolved new ++ pend = seq 0 n.
Proof.
  intros w.
  destruct (commands_written_in_the_order_sent
              ["GET S[1].name"; "GET S[2].name"; "GET S[3].name"]
              [CommandTaken; LineRead "S"; CommandTaken] (Pending 1%nat) w
              (mk_World (set_cmd_queue [("GET S[3].name", 2%nat)] __init__)
                 [WireWrite ("GET S[1].name" +:+ carriage_return);
                  SetResult 0%nat PyNone;
                  WireWrite ("GET S[2].name" +:+ carriage_return)] 3%nat)
              eq_refl eq_refl)
    as (n & new & pend & H1 & H2 & H3 & H4 & _).
  eexists (Pending 1%nat), _, n, new, pend.
  split; [reflexivity|]. repeat split; assumption.
Defined.

(** ** A command and its answer *)

Lemma Russound_queue_restored (r : Russound) (l : list (string * future)) :
  _cmd_queue r = [] ->
  set_cmd_queue [] (set_cmd_queue l r) = r.
Proof. destruct r; simpl; intros ->; reflexivity. Qed.

(** X7.  A miss and its answer.  When [get_zone_variable] misses on a
    session with an empty queue and an idle loop, the loop writes the
    [GET] text with a carriage return.  When the device then answers with
    an [S] line for the same zone (indices not negative) whose name is a
    non-empty run of characters that are not whitespace with the same
    lower-case form as the variable asked for, and whose value holds no
    line feed and no equals sign followed by a double quote that can be
    reached from its start without crossing whitespace, the loop stores
    the value, calls the zone callbacks, resolves the command's future
    with the value and is idle again, and from then on
    [get_zone_variable] answers from the cache without queuing
    anything. *)
Theorem get_zone_variable_answer_is_cached
    (zone_id : ZoneID) (variable name value res : string) (d : ascii)
    (w : World) :
  0 <= zone zone_id -> 0 <= controller zone_id ->
  name <> EmptyString -> all non_space name = true ->
  lower name = lower variable ->
  all not_linebreak value = true -> resplits value = false ->
  cached_zone (self w) zone_id variable = None ->
  _cmd_queue (self w) = [] ->
  strip res
  = String "S" (String d (ZoneIDOps.device_str zone_id +:+ "." +:+ name
                          +:+ "=" +:+ q +:+ value +:+ q)) ->
  let w1 := session_of (get_zone_variable zone_id variable w) in
  let w3 :=
    mk_World
      (set_zone_state
         (<[zone_id := <[lower variable := value]>
                         (default ∅ (_zone_state (self w) !! zone_id))]>
            (_zone_state (self w)))
         (self w))
      (trace w
       ++ [WireWrite ("GET " +:+ ZoneIDOps.device_str zone_id +:+ "." +:+ variable
                      +:+ carriage_return)]
       ++ map (fun cb => ZoneCallback cb zone_id (lower variable) value)
              (_zone_callbacks (self w))
       ++ [SetResult (next_future w) (PyStr value)])
      (S (next_future w)) in
  _ioloop [CommandTaken; LineRead res] (Idle, w1) = Some (Idle, w3)
  /\ get_zone_variable zone_id variable w3 = Finished (Returned (PyStr value)) w3.
Proof.
  intros Hz Hc Hne Hname Hlow Hval Hre Hmiss Hq Hs w1 w3.
  destruct (fmt_d_nonneg _ Hz) as (Hz1 & Hz2 & Hz3).
  destruct (fmt_d_nonneg _ Hc) as (Hc1 & Hc2 & Hc3).
  assert (Hm : _re_response_match
                 (slice_from 1 (String d (ZoneIDOps.device_str zone_id +:+ "."
                                  +:+ name +:+ "=" +:+ q +:+ value +:+ q)))
               = Some (mk_groupdict None (Some (fmt_d (controller zone_id)))
                                    (Some (fmt_d (zone zone_id))) name value)).
  { simpl slice_from. unfold ZoneIDOps.device_str. rewrite !append_assoc.
    apply (zone_payload_match (fmt_d (controller zone_id)) (fmt_d (zone zone_id))
             name value "."%char); try assumption; reflexivity. }
  assert (Hw1 : w1 = mk_World
                       (set_cmd_queue
                          [("GET " +:+ ZoneIDOps.device_str zone_id +:+ "."
                            +:+ variable, next_future w)] (self w))
                       (trace w) (S (next_future w))).
  { subst w1. unfold get_zone_variable. rewrite retrieve_zone_eq, Hmiss.
    unfold _send_cmd, session_of, set_self, enqueue, new_future; simpl.
    rewrite Hq. reflexivity. }
  split.
  - rewrite Hw1. cbn [_ioloop]. unfold _ioloop_step at 1. simpl.
    unfold _ioloop_step, on_line_pending, try_except, bind.
    rewrite (process_match res _ "S" _ _ Hs ltac:(discriminate) Hm).
    unfold applied, zone_stored, emit, ret; simpl.
    rewrite Hz3, Hc3, Hlow.
    destruct zone_id as [zn cn]; simpl.
    subst w3. simpl. f_equal. f_equal. f_equal.
    + destruct (self w); simpl in *. subst. reflexivity.
    + rewrite <- !app_assoc. rewrite !append_assoc. reflexivity.
  - unfold get_zone_variable. rewrite retrieve_zone_eq.
    replace (cached_zone (self w3) zone_id variable) with (Some value);
      [reflexivity|].
    subst w3. unfold cached_zone; simpl.
    rewrite lookup_insert_eq; simpl. rewrite lookup_insert_eq. reflexivity.
Qed.

Lemma get_zone_variable_answer_is_cached_witness :
  let w := mk_World __init__ [] 0%nat in
  let res := "S C[2].Z[5].Volume=" +:+ q +:+ "10" +:+ q in
  exists w3,
    _ioloop [CommandTaken; LineRead res]
            (Idle, session_of (get_zone_variable (mk_ZoneID 5 2) "volume" w))
    = Some (Idle, w3)
    /\ get_zone_variable (mk_ZoneID 5 2) "volume" w3
       = Finished (Returned (PyStr "10")) w3.
Proof.
  intros w res. eexists.
  apply (get_zone_variable_answer_is_cached (mk_ZoneID 5 2) "volume" "Volume"
           "10" res " "%char w);
    first [reflexivity | discriminate].
Defined.

(** X8.  A write and its acknowledgement.  After [set_zone_variable] on a
    session with an empty queue and an idle loop, the loop writes the
    [SET] text, and an [S] line whose payload matches no grammar (the
    bare acknowledgement) resolves the command's future with [None]; the
    session object is then exactly as it was before the call, so the
    cache does not hold the value written: it changes only when the
    device reports the variable. *)
Theorem set_zone_variable_ack_leaves_cache
    (zone_id : ZoneID) (variable value res rest : string) (w : World) :
  _cmd_queue (self w) = [] ->
  strip res = String "S" rest ->
  _re_response_match (slice_from 1 rest) = None ->
  _ioloop [CommandTaken; LineRead res]
          (Idle, session_of (set_zone_variable zone_id variable value w))
  = Some (Idle,
          mk_World (self w)
            (trace w
             ++ [WireWrite ("SET " +:+ ZoneIDOps.device_str zone_id +:+ "."
                            +:+ variable +:+ "=" +:+ q +:+ value +:+ q
                            +:+ carriage_return);
                 SetResult (next_future w) PyNone])
            (S (next_future w))).
Proof.
  intros Hq Hs Hm.
  unfold set_zone_variable, _send_cmd, session_of, set_self, enqueue, new_future.
  cbn [_ioloop]. unfold _ioloop_step at 1. simpl. rewrite Hq. simpl.
  unfold _ioloop_step, on_line_pending, try_except, bind.
  rewrite (process_nomatch res rest "S" _ Hs ltac:(discriminate) Hm).
  unfold emit, ret; simpl.
  rewrite Russound_queue_restored by exact Hq.
  rewrite <- !app_assoc, !append_assoc. reflexivity.
Qed.

Lemma set_zone_variable_ack_leaves_cache_witness :
  let w := snd (_store_cached_zone_variable (mk_ZoneID 5 2) "volume" "10"
                  (mk_World __init__ [] 0%nat)) in
  exists w',
    _ioloop [CommandTaken; LineRead (String "S" carriage_return)]
            (Idle, session_of (set_zone_variable (mk_ZoneID 5 2) "volume" "20" w))
    = Some (Idle, w')
    /\ self w' = self w.
Proof.
  intros w. eexists. split.
  - apply (set_zone_variable_ack_leaves_cache (mk_ZoneID 5 2) "volume" "20"
             (String "S" carriage_return) EmptyString w);
      reflexivity.
  - reflexivity.
Defined.

(** ** The callback registry *)

Lemma list_remove_absent (x : callback) (l : list callback) :
  x ∉ l -> list_remove x l = None.
Proof.
  induction l as [|y l IH]; [reflexivity|].
  intros H. apply not_elem_of_cons in H as [Hne Hl].
  simpl. rewrite decide_False by congruence. rewrite (IH Hl). reflexivity.
Qed.

Lemma list_remove_present (x : callback) (l : list callback) :
  x ∈ l ->
  exists l1 l2, l = l1 ++ (x :: l2) /\ (x ∉ l1) /\ list_remove x l = Some (l1 ++ l2).
Proof.
  induction l as [|y l IH]; [intros H; inversion H|].
  intros H. simpl. destruct (decide (y = x)) as [->|Hne].
  - exists [], l. repeat split. apply not_elem_of_nil.
  - apply elem_of_cons in H as [->|H]; [congruence|].
    destruct (IH H) as (l1 & l2 & -> & Hl1 & ->).
    exists (y :: l1), l2. repeat split.
    apply not_elem_of_cons. split; [congruence | exact Hl1].
Qed.

(** X9.  [remove_zone_callback] on a callback that is not registered
    raises [ValueError] and changes nothing.  On a registered one it
    removes the first registration only and keeps the order of the rest,
    and a later store calls exactly the remaining registrations in that
    order: a callback registered once is no longer called. *)
Theorem remove_zone_callback_first_registration (cb : callback) (w : World) :
  (cb ∉ _zone_callbacks (self w) -> remove_zone_callback cb w = inl ValueError)
  /\ (cb ∈ _zone_callbacks (self w) ->
      exists l1 l2,
        _zone_callbacks (self w) = l1 ++ (cb :: l2) /\ (cb ∉ l1)
        /\ remove_zone_callback cb w
           = inr (set_self (set_zone_callbacks (l1 ++ l2)) w)
        /\ forall zone_id name value,
             trace (snd (_store_cached_zone_variable zone_id name value
                           (set_self (set_zone_callbacks (l1 ++ l2)) w)))
             = trace w ++ map (fun c => ZoneCallback c zone_id (lower name) value)
                              (l1 ++ l2)).
Proof.
  unfold remove_zone_callback. split; intros H.
  - rewrite (list_remove_absent _ _ H). reflexivity.
  - destruct (list_remove_present _ _ H) as (l1 & l2 & Hl & Hl1 & Hr).
    exists l1, l2. rewrite Hr. repeat split; try assumption.
    intros zone_id name value. rewrite store_zone_eq. reflexivity.
Qed.

Lemma remove_zone_callback_first_registration_witness :
  let w := snd (add_zone_callback 7%nat
             (snd (add_zone_callback 4%nat (mk_World __init__ [] 0%nat)))) in
  exists l1 l2,
    _zone_callbacks (self w) = l1 ++ (4%nat :: l2) /\ (4%nat ∉ l1)
    /\ remove_zone_callback 4%nat w
       = inr (set_self (set_zone_callbacks (l1 ++ l2)) w).
Proof.
  intros w.
  destruct (proj2 (remove_zone_callback_first_registration 4%nat w))
    as (l1 & l2 & H1 & H2 & H3 & _).
  - apply elem_of_cons. left. reflexivity.
  - exists l1, l2. repeat split; assumption.
Defined.

(** X10.  Registering a callback that was not registered and removing it
    again leaves the session exactly as it was, for zone callbacks and
    for source callbacks (whose removal takes a source id that plays no
    part). *)
Theorem add_then_remove_callback (cb : callback) (source_id : Z) (w : World) :
  (cb ∉ _zone_callbacks (self w) ->
   remove_zone_callback cb (snd (add_zone_callback cb w)) = inr w)
  /\ (cb ∉ _source_callbacks (self w) ->
      remove_source_callback source_id cb (snd (add_source_callback cb w)) = inr w).
Proof.
  assert (Hrm : forall l : list callback,
             cb ∉ l -> list_remove cb (l ++ [cb]) = Some l).
  { induction l as [|y l IH]; intros H; simpl.
    - rewrite decide_True by reflexivity. reflexivity.
    - apply not_elem_of_cons in H as [Hne Hl].
      rewrite decide_False by congruence. rewrite (IH Hl). reflexivity. }
  split; intros H.
  - unfold remove_zone_callback, add_zone_callback, modify; simpl.
    rewrite (Hrm _ H). destruct w as [[] ? ?]; reflexivity.
  - unfold remove_source_callback, add_source_callback, modify; simpl.
    rewrite (Hrm _ H). destruct w as [[] ? ?]; reflexivity.
Qed.

Lemma add_then_remove_callback_witness :
  let w := snd (add_zone_callback 4%nat (mk_World __init__ [] 0%nat)) in
  remove_zone_callback 7%nat (snd (add_zone_callback 7%nat w)) = inr w.
Proof.
  intros w.
  apply (proj1 (add_then_remove_callback 7%nat 1 w)).
  intros H. apply elem_of_cons in H as [H|H]; [discriminate | inversion H].
Defined.

(** ** Stores *)

(** X11.  The last store wins and leaves no residue: after two stores
    for the same zone under names with the same lower-case form, the
    session object is the one a single store of the second value would
    have given, and the callbacks have been called for each store, the
    first value first (nothing is deduplicated). *)
Theorem store_twice_last_wins
    (zone_id : ZoneID) (name name' value value' : string) (w : World) :
  lower name' = lower name ->
  let w2 := snd (_store_cached_zone_variable zone_id name' value'
                   (snd (_store_cached_zone_variable zone_id name value w))) in
  self w2 = self (snd (_store_cached_zone_variable zone_id name' value' w))
  /\ trace w2
     = trace w
       ++ map (fun cb => ZoneCallback cb zone_id (lower name) value)
              (_zone_callbacks (self w))
       ++ map (fun cb => ZoneCallback cb zone_id (lower name) value')
              (_zone_callbacks (self w)).
Proof.
  intros Hn w2. subst w2. rewrite !store_zone_eq. simpl.
  unfold zone_stored; simpl. rewrite Hn. split.
  - rewrite lookup_insert_eq; simpl.
    rewrite !insert_insert_eq.
    destruct (self w); reflexivity.
  - rewrite <- app_assoc. reflexivity.
Qed.

Lemma store_twice_last_wins_witness :
  let w := snd (add_zone_callback 4%nat (mk_World __init__ [] 0%nat)) in
  let w2 := snd (_store_cached_zone_variable (mk_ZoneID 5 2) "VOLUME" "10"
                   (snd (_store_cached_zone_variable (mk_ZoneID 5 2) "volume" "10" w))) in
  trace w2
  = [ZoneCallback 4%nat (mk_ZoneID 5 2) "volume" "10";
     ZoneCallback 4%nat (mk_ZoneID 5 2) "volume" "10"].
Proof.
  intros w.
  apply (proj2 (store_twice_last_wins (mk_ZoneID 5 2) "volume" "VOLUME" "10" "10"
                  w eq_refl)).
Defined.

(** X12.  A store into the zone cache changes one entry only: every other
    zone, every name of the same zone with another lower-case form and
    the whole source cache read as before, and the queue, the watched
    sets and the callback lists are untouched. *)
Theorem store_zone_changes_one_entry
    (zone_id : ZoneID) (name value : string) (w : World) :
  let w1 := snd (_store_cached_zone_variable zone_id name value w) in
  (forall z' n', z' <> zone_id \/ lower n' <> lower name ->
                 cached_zone (self w1) z' n' = cached_zone (self w) z' n')
  /\ (forall s n', cached_source (self w1) s n' = cached_source (self w) s n')
  /\ _cmd_queue (self w1) = _cmd_queue (self w)
  /\ _watched_zones (self w1) = _watched_zones (self w)
  /\ _watched_sources (self w1) = _watched_sources (self w)
  /\ _zone_callbacks (self w1) = _zone_callbacks (self w)
  /\ _source_callbacks (self w1) = _source_callbacks (self w).
Proof.
  intros w1. subst w1. rewrite store_zone_eq. cbn [snd]. split.
  - intros z' n' H. rewrite cached_zone_stored.
    rewrite decide_False by tauto. reflexivity.
  - repeat split.
Qed.

Lemma store_zone_changes_one_entry_witness :
  let w := snd (_store_cached_zone_variable (mk_ZoneID 5 2) "status" "ON"
                  (mk_World __init__ [] 0%nat)) in
  let w1 := snd (_store_cached_zone_variable (mk_ZoneID 5 2) "volume" "10" w) in
  cached_zone (self w1) (mk_ZoneID 5 2) "Status" = cached_zone (self w) (mk_ZoneID 5 2) "Status".
Proof.
  intros w.
  apply (proj1 (store_zone_changes_one_entry (mk_ZoneID 5 2) "volume" "10" w)).
  right. discriminate.
Defined.

(** ** Source variables and source watches *)

(** X13.  Reading a source variable.  When the source has a value under
    the lower-cased name, [get_source_variable] finishes at once with it
    and [get_cached_source_variable] returns it, both on an unchanged
    session.  Otherwise [get_source_variable] queues the text
    [GET S[id].variable] (the name as given, not lower-cased) with a new
    future and returns that future's outcome, and
    [get_cached_source_variable] returns the default, queuing nothing. *)
Theorem source_variable_reads
    (source_id : Z) (variable : string) (default : pyval) (w : World) :
  match cached_source (self w) source_id variable with
  | Some s =>
      get_source_variable source_id variable w = Finished (Returned (PyStr s)) w
      /\ get_cached_source_variable source_id variable default w
         = (Returned (PyStr s), w)
  | None =>
      get_source_variable source_id variable w
      = Awaiting (next_future w)
          (mk_World
             (set_cmd_queue
                (_cmd_queue (self w)
                 ++ [("GET S[" +:+ fmt_d source_id +:+ "]." +:+ variable,
                      next_future w)])
                (self w))
             (trace w) (S (next_future w)))
          (fun r w' => Finished r w')
      /\ get_cached_source_variable source_id variable default w
         = (Returned default, w)
  end.
Proof.
  unfold get_source_variable, get_cached_source_variable, try_except, bind.
  rewrite retrieve_source_eq.
  destruct (cached_source (self w) source_id variable); split; reflexivity.
Qed.

(** X14.  [unwatch_source] removes the source from the watched set
    first: for a source that is not in the set it raises [KeyError] on an
    unchanged session, for one that is it takes it out, queues
    [WATCH S[id] OFF] and returns the outcome of that command. *)
Theorem unwatch_source_removes_first (source_id : Z) (w : World) :
  (source_id ∉ _watched_sources (self w)
   -> unwatch_source source_id w = Finished (Raised KeyError) w)
  /\ (source_id ∈ _watched_sources (self w)
      -> unwatch_source source_id w
         = Awaiting (next_future w)
             (mk_World
                (set_cmd_queue
                   (_cmd_queue (self w)
                    ++ [("WATCH S[" +:+ fmt_d source_id +:+ "] OFF",
                         next_future w)])
                   (set_watched_sources
                      (_watched_sources (self w) ∖ {[source_id]}) (self w)))
                (trace w) (S (next_future w)))
             (fun r w' => Finished r w')).
Proof.
  unfold unwatch_source, task_bind, lift, bind, getattr_source_set, gets,
    set_remove; simpl.
  split; intros H.
  - rewrite decide_False by exact H. reflexivity.
  - rewrite decide_True by exact H. reflexivity.
Qed.

Lemma unwatch_source_removes_first_witness :
  let w := mk_World (set_watched_sources {[3]} __init__) [] 0%nat in
  unwatch_source 3 w
  = Awaiting 0%nat
      (mk_World
         (set_cmd_queue [("WATCH S[3] OFF", 0%nat)]
            (set_watched_sources ({[3]} ∖ {[3]}) __init__))
         [] 1%nat)
      (fun r w' => Finished r w').
Proof.
  intros w.
  apply (proj2 (unwatch_source_removes_first 3 w)).
  subst w. simpl. set_solver.
Defined.

(** X15.  No stage of [watch_source] changes the watched-sources set:
    not the call, and not the resumption, whatever the outcome of the
    command.  So a source that was not in the set is still not in it
    after [watch_source] has run to its end, and [unwatch_source] for it
    raises [KeyError]. *)
Theorem watch_source_never_watches (source_id : Z) (w : World) :
  exists fut w1 k,
    watch_source source_id w = Awaiting fut w1 k
    /\ _watched_sources (self w1) = _watched_sources (self w)
    /\ forall (r : outcome pyval) (w' : World),
         (exists e, k r w' = Finished (Raised e) w')
         /\ (source_id ∉ _watched_sources (self w') ->
             unwatch_source source_id (session_of (k r w'))
             = Finished (Raised KeyError) (session_of (k r w'))).
Proof.
  eexists _, _, _. split; [reflexivity|]. split; [reflexivity|].
  intros r w'. cbv beta.
  destruct r as [v|e]; simpl; (split; [eexists; reflexivity|]); intros H;
    unfold unwatch_source, task_bind, lift, bind, getattr_source_set, gets,
      set_remove; simpl;
    rewrite decide_False by exact H; reflexivity.
Qed.

Lemma watch_source_never_watches_witness :
  exists fut w1 k,
    watch_source 3 (mk_World __init__ [] 0%nat) = Awaiting fut w1 k
    /\ unwatch_source 3 (session_of (k (Returned PyNone) w1))
       = Finished (Raised KeyError) (session_of (k (Returned PyNone) w1)).
Proof.
  destruct (watch_source_never_watches 3 (mk_World __init__ [] 0%nat))
    as (fut & w1 & k & H1 & H2 & H3).
  exists fut, w1, k. split; [exact H1|].
  apply (proj2 (H3 (Returned PyNone) w1)).
  rewrite H2. apply not_elem_of_empty.
Defined.

(** ** Zone watches *)

Lemma added_then_removed (z : ZoneID) (zs : gset ZoneID) :
  ({[z]} ∪ zs) ∖ {[z]} = zs ∖ {[z]}.
Proof.
  apply set_eq. intros x.
  rewrite !elem_of_difference, elem_of_union, elem_of_singleton. tauto.
Qed.

(** X16.  [watch_zone] followed by [unwatch_zone].  Resumed with a
    successful outcome, [watch_zone] has the zone in the watched set and
    returns the outcome; resumed with a failure it returns the failure
    and adds nothing.  After the success [unwatch_zone] does not raise:
    it queues [WATCH C[c].Z[z] OFF] and leaves the watched set as it was
    before the two calls, less the zone. *)
Theorem watch_then_unwatch_zone (zone_id : ZoneID) (w : World) :
  exists fut w1 k,
    watch_zone zone_id w = Awaiting fut w1 k
    /\ forall (w' : World),
         (forall e, k (Raised e) w' = Finished (Raised e) w')
         /\ forall r,
              exists w2,
                k (Returned r) w' = Finished (Returned r) w2
                /\ zone_id ∈ _watched_zones (self w2)
                /\ unwatch_zone zone_id w2
                   = Awaiting (next_future w')
                       (mk_World
                          (set_cmd_queue
                             (_cmd_queue (self w')
                              ++ [("WATCH " +:+ ZoneIDOps.device_str zone_id
                                   +:+ " OFF", next_future w')])
                             (set_watched_zones
                                (_watched_zones (self w') ∖ {[zone_id]})
                                (self w')))
                          (trace w') (S (next_future w')))
                       (fun r w'' => Finished r w'').
Proof.
  eexists _, _, _. split; [reflexivity|].
  intros w'. split; [intros e; reflexivity|].
  intros r. eexists. split; [reflexivity|]. split.
  - simpl. set_solver.
  - unfold unwatch_zone, task_bind, lift, bind, gets, set_remove; simpl.
    rewrite decide_True by set_solver. simpl.
    unfold _send_cmd, set_self, enqueue, new_future; simpl.
    rewrite added_then_removed.
    destruct (self w'); reflexivity.
Qed.

(** ** The grammar, read backwards *)

(** X17.  Whatever the grammar matches is an address followed by an
    assignment at the start of the payload: either a source ([S[], a
    non-empty run of digits, []]) and then neither controller nor zone,
    or a controller and a zone (non-empty runs of digits, one arbitrary
    character that is no line feed between []] and [Z[]) and then no
    source; the name is a non-empty run of characters that are not
    whitespace and the value holds no line feed. *)
Theorem response_grammar_sound (s : string) (p : groupdict) :
  _re_response_match s = Some p ->
  (g_variable p <> EmptyString
   /\ all non_space (g_variable p) = true
   /\ all not_linebreak (g_value p) = true)
  /\ ((exists src rest,
          g_source p = Some src /\ g_controller p = None /\ g_zone p = None
          /\ src <> EmptyString /\ all isdecimal src = true
          /\ s = "S[" +:+ src +:+ "]." +:+ g_variable p +:+ "=" +:+ q
                 +:+ g_value p +:+ q +:+ rest)
      \/ (exists ctl z d rest,
             g_source p = None /\ g_controller p = Some ctl /\ g_zone p = Some z
             /\ ctl <> EmptyString /\ all isdecimal ctl = true
             /\ z <> EmptyString /\ all isdecimal z = true
             /\ not_linebreak d = true
             /\ s = "C[" +:+ ctl +:+ "]" +:+ String d ("Z[" +:+ z +:+ "]."
                    +:+ g_variable p +:+ "=" +:+ q +:+ g_value p +:+ q +:+ rest))).
Proof. apply _re_response_match_inv. Qed.

Lemma response_grammar_sound_witness :
  let p := mk_groupdict (Some "3") None None "name" "Kitchen" in
  _re_response_match ("S[3].name=" +:+ q +:+ "Kitchen" +:+ q +:+ " tail") = Some p
  /\ g_variable p <> EmptyString
  /\ all non_space (g_variable p) = true
  /\ all not_linebreak (g_value p) = true.
Proof.
  split; [reflexivity|].
  exact (proj1 (response_grammar_sound
                  ("S[3].name=" +:+ q +:+ "Kitchen" +:+ q +:+ " tail")
                  (mk_groupdict (Some "3") None None "name" "Kitchen") eq_refl)).
Defined.

Lemma digit_run_unique (u u' s s' : string) (a b : ascii) :
  all isdecimal u = true -> all isdecimal u' = true ->
  isdecimal a = false -> isdecimal b = false ->
  u +:+ String a s = u' +:+ String b s' ->
  u = u' /\ a = b /\ s = s'.
Proof.
  revert u'; induction u as [|c u IH]; intros [|c' u'] Hu Hu' Ha Hb;
    rewrite ?append_cons, ?append_empty_l; intros [= H1 H2]; subst.
  - auto.
  - simpl in Hu'. rewrite Ha in Hu'. discriminate.
  - simpl in Hu. rewrite Hb in Hu. discriminate.
  - simpl in Hu, Hu'.
    apply andb_true_iff in Hu as [_ Hu], Hu' as [_ Hu'].
    destruct (IH u' Hu Hu' Ha Hb H2) as (-> & -> & ->). auto.
Qed.

Lemma digits_no_minus (u s s' : string) :
  u <> EmptyString -> all isdecimal u = true ->
  String "-" s = u +:+ s' -> False.
Proof.
  destruct u as [|c u]; [congruence|]. intros _ Hu.
  rewrite append_cons. intros [= <- _]. discriminate Hu.
Qed.

(** X18.  A [ZoneID] may be built with a negative index and
    [device_str] renders it with a minus sign, but the response grammar
    takes digits only: no payload that begins with the address of such a
    zone is recognised, so no line is ever stored for it. *)
Theorem negative_zone_is_never_addressed (zone_id : ZoneID) (rest : string) :
  zone zone_id < 0 \/ controller zone_id < 0 ->
  _re_response_match (ZoneIDOps.device_str zone_id +:+ rest) = None.
Proof.
  intros Hneg.
  destruct (_re_response_match (ZoneIDOps.device_str zone_id +:+ rest))
    as [p|] eqn:Hm; [exfalso | reflexivity].
  apply _re_response_match_inv in Hm as
    [_ [(src & r & _ & _ & _ & _ & _ & Heq)
       |(ctl & z & d & r & _ & _ & _ & Hctl & Hcd & Hz & Hzd & _ & Heq)]];
    unfold ZoneIDOps.device_str in Heq; rewrite !append_assoc in Heq.
  - discriminate Heq.
  - injection Heq as Heq.
    destruct (Z_lt_le_dec (controller zone_id) 0) as [Hc|Hc].
    + destruct (fmt_d_negative _ Hc) as (s0 & Hs0). rewrite Hs0 in Heq.
      rewrite append_cons in Heq.
      exact (digits_no_minus ctl _ _ Hctl Hcd Heq).
    + destruct Hneg as [Hzn|Hcn]; [|lia].
      destruct (fmt_d_nonneg _ Hc) as (_ & Hc2 & _).
      change ("].Z[" +:+ fmt_d (zone zone_id) +:+ "]" +:+ rest)
        with (String "]" (".Z[" +:+ fmt_d (zone zone_id) +:+ "]" +:+ rest)) in Heq.
      change ("]" +:+ String d ("Z[" +:+ z +:+ "]." +:+ g_variable p +:+ "=" +:+ q
                                +:+ g_value p +:+ q +:+ r))
        with (String "]" (String d ("Z[" +:+ z +:+ "]." +:+ g_variable p +:+ "="
                                +:+ q +:+ g_value p +:+ q +:+ r))) in Heq.
      apply digit_run_unique in Heq as (_ & _ & Heq);
        [|assumption|assumption|reflexivity|reflexivity].
      injection Heq as _ Heq.
      destruct (fmt_d_negative _ Hzn) as (s0 & Hs0). rewrite Hs0 in Heq.
      rewrite append_cons in Heq.
      exact (digits_no_minus z _ _ Hz Hzd Heq).
Qed.

Lemma negative_zone_is_never_addressed_witness :
  _re_response_match
    (ZoneIDOps.device_str (mk_ZoneID (-5) 2) +:+ ".status=" +:+ q +:+ "ON" +:+ q)
  = None.
Proof.
  apply (negative_zone_is_never_addressed (mk_ZoneID (-5) 2)).
  left. reflexivity.
Defined.

(** ** Addresses are told apart *)

Lemma run_unique (p : ascii -> bool) (u u' s s' : string) (a b : ascii) :
  all p u = true -> all p u' = true ->
  p a = false -> p b = false ->
  u +:+ String a s = u' +:+ String b s' ->
  u = u' /\ a = b /\ s = s'.
Proof.
  revert u'; induction u as [|c u IH]; intros [|c' u'] Hu Hu' Ha Hb;
    rewrite ?append_cons, ?append_empty_l; intros [= H1 H2]; subst.
  - auto.
  - simpl in Hu'. rewrite Ha in Hu'. discriminate.
  - simpl in Hu. rewrite Hb in Hu. discriminate.
  - simpl in Hu, Hu'.
    apply andb_true_iff in Hu as [_ Hu], Hu' as [_ Hu'].
    destruct (IH u' Hu Hu' Ha Hb H2) as (-> & -> & ->). auto.
Qed.

Lemma string_of_uint_sign_or_digit (d : Decimal.uint) :
  all sign_or_digit (NilEmpty.string_of_uint d) = true.
Proof. induction d; simpl; try reflexivity; exact IHd. Qed.

Lemma to_uint_not_nil (p : positive) : Pos.to_uint p <> Decimal.Nil.
Proof.
  intros H. pose proof (DecimalPos.Unsigned.of_to p) as Hp.
  rewrite H in Hp. discriminate Hp.
Qed.

Lemma fmt_d_sign_or_digit (n : Z) : all sign_or_digit (fmt_d n) = true.
Proof.
  unfold fmt_d, NilZero.string_of_int, NilZero.string_of_uint.
  destruct n as [|p|p]; simpl; [reflexivity | |];
    pose proof (to_uint_not_nil p) as Hp;
    destruct (Pos.to_uint p) eqn:Hd; try congruence;
    rewrite <- Hd; apply string_of_uint_sign_or_digit.
Qed.

Lemma fmt_d_inj (n m : Z) : fmt_d n = fmt_d m -> n = m.
Proof.
  unfold fmt_d. intros H.
  assert (Hnil : forall z, Z.to_int z <> Decimal.Pos Decimal.Nil
                           /\ Z.to_int z <> Decimal.Neg Decimal.Nil).
  { intros [|p|p]; simpl; split; try discriminate;
      intros [= Hp]; exact (to_uint_not_nil p Hp). }
  assert (Hi : Some (Z.to_int n) = Some (Z.to_int m)).
  { rewrite <- (NilZero.isi (Z.to_int n)), <- (NilZero.isi (Z.to_int m)), H;
      first [reflexivity | apply Hnil]. }
  injection Hi as Hi.
  rewrite <- (DecimalZ.of_to n), <- (DecimalZ.of_to m), Hi. reflexivity.
Qed.

(** X19.  Zone ids are told apart by their texts: two zone ids with the
    same [device_str] or the same [__str__] are the same zone id, for
    all indices, negative ones included.  Commands for different zones
    never carry the same address, and [__hash__] collides for different
    zones only where the hash of strings does. *)
Theorem ZoneID_texts_injective (a b : ZoneID) :
  (ZoneIDOps.device_str a = ZoneIDOps.device_str b -> a = b)
  /\ (ZoneIDOps.__str__ a = ZoneIDOps.__str__ b -> a = b).
Proof.
  destruct a as [za ca], b as [zb cb].
  unfold ZoneIDOps.device_str, ZoneIDOps.__str__; simpl.
  pose proof (fmt_d_sign_or_digit za) as Hza.
  pose proof (fmt_d_sign_or_digit zb) as Hzb.
  pose proof (fmt_d_sign_or_digit ca) as Hca.
  pose proof (fmt_d_sign_or_digit cb) as Hcb.
  split; intros H.
  - injection H as H.
    change ("].Z[" +:+ fmt_d za +:+ "]")
      with (String "]" (".Z[" +:+ fmt_d za +:+ "]")) in H.
    change ("].Z[" +:+ fmt_d zb +:+ "]")
      with (String "]" (".Z[" +:+ fmt_d zb +:+ "]")) in H.
    apply (run_unique sign_or_digit) in H as (Hc & _ & H);
      [|assumption|assumption|reflexivity|reflexivity].
    injection H as H.
    apply (run_unique sign_or_digit) in H as (Hz & _ & _);
      [|assumption|assumption|reflexivity|reflexivity].
    apply fmt_d_inj in Hc, Hz. subst. reflexivity.
  - change (":" +:+ fmt_d za) with (String ":" (fmt_d za)) in H.
    change (":" +:+ fmt_d zb) with (String ":" (fmt_d zb)) in H.
    apply (run_unique sign_or_digit) in H as (Hc & _ & Hz);
      [|assumption|assumption|reflexivity|reflexivity].
    apply fmt_d_inj in Hc, Hz. subst. reflexivity.
Qed.

Lemma ZoneID_texts_injective_witness :
  mk_ZoneID (2 + 3) (1 + 1) = mk_ZoneID 5 2.
Proof.
  apply (proj1 (ZoneID_texts_injective (mk_ZoneID (2 + 3) (1 + 1)) (mk_ZoneID 5 2))).
  reflexivity.
Defined.

(** ** Names and line endings *)

Lemma lower_char_idempotent (c : ascii) : lower_char (lower_char c) = lower_char c.
Proof. destruct c as [[] [] [] [] [] [] [] []]; reflexivity. Qed.

Lemma lower_idempotent (s : string) : lower (lower s) = lower s.
Proof.
  induction s as [|c s IH]; [reflexivity|].
  simpl. rewrite lower_char_idempotent, IH. reflexivity.
Qed.

(** X20.  The name a callback is called with reads the value back: after
    a store, for a zone or for a source, retrieving under the lower-cased
    name that was passed to the callbacks returns the value stored. *)
Theorem callback_name_reads_value_back
    (zone_id : ZoneID) (source_id : Z) (name value : string) (w : World) :
  let w1 := snd (_store_cached_zone_variable zone_id name value w) in
  let v1 := snd (_store_cached_source_variable source_id name value w) in
  (forall cb n v, ZoneCallback cb zone_id n v ∈ drop (length (trace w)) (trace w1) ->
                  _retrieve_cached_zone_variable zone_id n w1 = (Returned v, w1))
  /\ (forall cb n v, SourceCallback cb source_id n v ∈ drop (length (trace w)) (trace v1) ->
                     _retrieve_cached_source_variable source_id n v1 = (Returned v, v1)).
Proof.
  intros w1 v1. subst w1 v1. rewrite store_zone_eq, store_source_eq. cbn [snd].
  split; intros cb n v Hin.
  - unfold zone_stored in Hin; simpl in Hin.
    rewrite drop_app_length in Hin.
    apply list_elem_of_fmap in Hin as (c & [= -> -> ->] & _).
    rewrite retrieve_zone_eq, cached_zone_stored.
    rewrite decide_True by (split; [reflexivity | apply lower_idempotent]).
    reflexivity.
  - unfold source_stored in Hin; simpl in Hin.
    rewrite drop_app_length in Hin.
    apply list_elem_of_fmap in Hin as (c & [= -> -> ->] & _).
    rewrite retrieve_source_eq, cached_source_stored.
    rewrite decide_True by (split; [reflexivity | apply lower_idempotent]).
    reflexivity.
Qed.

Lemma callback_name_reads_value_back_witness :
  let w := snd (add_zone_callback 4%nat (mk_World __init__ [] 0%nat)) in
  let w1 := snd (_store_cached_zone_variable (mk_ZoneID 5 2) "Volume" "10" w) in
  _retrieve_cached_zone_variable (mk_ZoneID 5 2) "volume" w1 = (Returned "10", w1).
Proof.
  intros w.
  apply (proj1 (callback_name_reads_value_back (mk_ZoneID 5 2) 3 "Volume" "10" w)
           4%nat "volume" "10").
  apply elem_of_cons. left. reflexivity.
Defined.

Lemma lstrip_app_pad (s pad : string) :
  all isspace pad = true ->
  lstrip (s +:+ pad) = if all isspace s then EmptyString else lstrip s +:+ pad.
Proof.
  intros H. induction s as [|c s IH].
  - simpl. rewrite append_empty_l. apply lstrip_blank, H.
  - rewrite append_cons. simpl. destruct (isspace c); [exact IH | reflexivity].
Qed.

Lemma strip_pad (pad pad' s : string) :
  all isspace pad = true -> all isspace pad' = true ->
  strip (pad +:+ s +:+ pad') = strip s.
Proof.
  intros Hp Hp'. unfold strip.
  rewrite lstrip_pad by exact Hp.
  rewrite lstrip_app_pad by exact Hp'.
  destruct (all isspace s) eqn:Hs.
  - rewrite (lstrip_blank s Hs). reflexivity.
  - apply rstrip_pad, Hp'.
Qed.

(** X21.  Whitespace around a line plays no part: a line with any
    whitespace before it and after it (the carriage return and line feed
    of the wire, among others) is processed, and moves the loop, exactly
    as the line without it. *)
Theorem surrounding_whitespace_is_ignored
    (pad pad' res : string) (st : loop_mode * World) :
  all isspace pad = true -> all isspace pad' = true ->
  _process_response (pad +:+ res +:+ pad') (snd st)
  = _process_response res (snd st)
  /\ _ioloop_step (LineRead (pad +:+ res +:+ pad')) st
     = _ioloop_step (LineRead res) st.
Proof.
  intros Hp Hp'.
  assert (H : forall w, _process_response (pad +:+ res +:+ pad') w
                        = _process_response res w).
  { intros w. unfold _process_response.
    rewrite (strip_pad pad pad' res Hp Hp'). reflexivity. }
  split; [apply H|].
  destruct st as [[|fut|e] w]; simpl;
    unfold on_line_idle, on_line_pending, try_except, bind;
    rewrite ?H; reflexivity.
Qed.

Lemma surrounding_whitespace_is_ignored_witness :
  _process_response
    (" " +:+ "S" +:+ String "013"%char (String "010"%char EmptyString))
    (mk_World __init__ [] 0%nat)
  = _process_response "S" (mk_World __init__ [] 0%nat).
Proof.
  apply (proj1 (surrounding_whitespace_is_ignored
                  " " (String "013"%char (String "010"%char EmptyString)) "S"
                  (Idle, mk_World __init__ [] 0%nat) eq_refl eq_refl)).
Defined.
